(** * pygimli: composite matrix adapters, data-matrix viewer, VES manager

    A shallow embedding of

    - [python/pygimli/core/matrix.py]      (module [Matrix]),
    - [python/pygimli/mplviewer/dataview.py] (module [DataView]),
    - [python/pygimli/physics/ert/ves.py]  (module [VES]),

    together with the properties stated about them.  Python methods are
    functions in a state-and-exception monad over the object ([self]) or
    over the part of the world they touch; native objects of the compiled
    core ([pg.RVector], [pg.RInversion], ...) and of matplotlib are opaque
    and appear through their interface or through the log of calls made
    on them. *)

From Stdlib Require Import ZArith List String Ring Uint63 Floats.PrimFloat.
From Stdlib Require Floats.SpecFloat Floats.FloatOps Floats.FloatAxioms.
From stdpp Require Import gmap strings list sorting pretty.

Local Open Scope string_scope.
Set Warnings "-inexact-float,-register-all".

(** ** Python exceptions and methods *)

Inductive exn : Type :=
| Exception (msg : string)
| KeyError (key : string)
| IndexError (msg : string)
| TypeError (msg : string)
| ValueError (msg : string)
| AttributeError (msg : string)
| UnboundLocalError (msg : string).

Inductive result (T : Type) : Type :=
| Ok (v : T)
| Raise (e : exn).
Arguments Ok {T} v.
Arguments Raise {T} e.

(** A method of an object of class [S]: it runs on the current [self],
    returns or raises, and leaves the object in some state.  Whatever was
    assigned before a [raise] stays assigned. *)
Definition method (S T : Type) : Type := S -> result T * S.

Definition ret {S T} (v : T) : method S T := fun s => (Ok v, s).
Definition throw {S T} (e : exn) : method S T := fun s => (Raise e, s).
Definition bind {S T U} (m : method S T) (k : T -> method S U) : method S U :=
  fun s => match m s with
           | (Ok v, s') => k v s'
           | (Raise e, s') => (Raise e, s')
           end.
Definition this {S} : method S S := fun s => (Ok s, s).
Definition assign {S} (f : S -> S) : method S unit := fun s => (Ok tt, f s).
Definition lift {S T} (r : result T) : method S T := fun s => (r, s).

Notation "'let!' x ':=' m 'in' k" := (bind m (fun x => k))
  (at level 10, x name, m at level 100, k at level 200).
Notation "m ';;;' k" := (bind m (fun _ => k))
  (at level 100, k at level 200, right associativity).

Notation "'let!' ' p ':=' m 'in' k" := (bind m (fun x => let 'p := x in k))
  (at level 10, p pattern, m at level 100, k at level 200).

(** What a call returns, and the object it leaves. *)
Definition returns {S T} (m : method S T) (s : S) : result T := fst (m s).
Definition leaves {S T} (m : method S T) (s : S) : S := snd (m s).

Definition is_Ok {T} (r : result T) : bool :=
  match r with Ok _ => true | Raise _ => false end.

(** [d.pop(key)] and [d.pop(key, default)] on a dictionary with string
    keys: the value and the dictionary without the key. *)
Definition pop {V} (d : gmap string V) (key : string) : result (V * gmap string V) :=
  match d !! key with
  | Some v => Ok (v, delete key d)
  | None => Raise (KeyError key)
  end.

Definition pop_default {V} (d : gmap string V) (key : string) (default : V)
  : V * gmap string V :=
  match d !! key with
  | Some v => (v, delete key d)
  | None => (default, d)
  end.

(** The float of a (small) non-negative Python int. *)
Definition of_nat (n : nat) : float :=
  PrimFloat.of_uint63 (Uint63.of_Z (Z.of_nat n)).

(** [for i in l: body] *)
Fixpoint for_ {S T} (l : list T) (body : T -> method S unit) : method S unit :=
  match l with
  | [] => ret tt
  | i :: l' => body i ;;; for_ l' body
  end.

(** ** core/matrix.py *)

(** The entries.  [pg.RVector] and the numpy arrays hold binary64
    numbers, and the classes use of them only the constants [0.] and
    [1.0], the sum and the product.  The classes are written over these
    four operations: on [float64] they compute as the code does, with
    its rounding; the same text read over exact numbers is what the
    algebraic statements are about. *)
Class Scalar (R : Type) : Type := {
  rO : R;
  rI : R;
  radd : R -> R -> R;
  rmul : R -> R -> R
}.

#[export] Instance float64 : Scalar float :=
  {| rO := 0%float; rI := 1%float;
     radd := PrimFloat.add; rmul := PrimFloat.mul |}.

Module Matrix.

Section Vectors.
Context {R : Type} `{Scalar R}.

(** Modelled from the spec: the native vector type [pg.RVector] and its
    elementwise product [x * y] (the spec's r∘x), which is defined on
    two vectors of one size. *)
Definition hadamard (x y : list R) : list R := zip_with rmul x y.

Definition vmul (x y : list R) : result (list R) :=
  if (length x =? length y)%nat then Ok (hadamard x y)
  else Raise (Exception "vector sizes differ").

(** Modelled from the spec: [pg.RVector(n, v)], the vector of [n]
    entries all equal to [v]. *)
Definition RVector (n : nat) (v : R) : list R := replicate n v.

(** The inner product and the linear combinations the properties are
    stated with. *)
Definition dot (x y : list R) : R := foldr radd rO (zip_with rmul x y).
Definition vscale (a : R) (x : list R) : list R := map (rmul a) x.
Definition vadd (x y : list R) : list R := zip_with radd x y.
End Vectors.

(** [pg.MatrixBase]: the interface of the native matrices, which the
    adapters both wrap and implement.  Its four members are constant
    member functions of the wrapped object. *)
Record MatrixBase (R : Type) : Type := {
  rows : nat;
  cols : nat;
  mult : list R -> result (list R);
  transMult : list R -> result (list R)
}.
Arguments rows {R} _.
Arguments cols {R} _.
Arguments mult {R} _ _.
Arguments transMult {R} _ _.

(** *** class MultLeftMatrix *)
Module MultLeftMatrix.
Section Class.
Context {R : Type} `{Scalar R}.

Record t : Type := { A : MatrixBase R; left : list R }.

Definition __init__ (A : MatrixBase R) (left : list R) : result t :=
  if negb (Matrix.rows A =? length left)%nat
  then Raise (Exception "Matrix columns do not fit vector length!")
  else Ok {| A := A; left := left |}.

Definition rows : method t nat :=
  let! self := this in ret (Matrix.rows self.(A)).

Definition cols : method t nat :=
  let! self := this in ret (Matrix.cols self.(A)).

Definition mult (x : list R) : method t (list R) :=
  let! self := this in
  let! Ax := lift (Matrix.mult self.(A) x) in
  lift (vmul Ax self.(left)).

Definition transMult (x : list R) : method t (list R) :=
  let! self := this in
  let! xl := lift (vmul x self.(left)) in
  lift (Matrix.transMult self.(A) xl).
End Class.
Arguments t R : clear implicits.
End MultLeftMatrix.

(** *** class MultRightMatrix *)
Module MultRightMatrix.
Section Class.
Context {R : Type} `{Scalar R}.

Record t : Type := { A : MatrixBase R; r : list R }.

Definition __init__ (A : MatrixBase R) (r : option (list R)) : result t :=
  match r with
  | None => Ok {| A := A; r := RVector (Matrix.cols A) rI |}
  | Some r => Ok {| A := A; r := r |}
  end.

Definition mult (x : list R) : method t (list R) :=
  let! self := this in
  let! xr := lift (vmul x self.(r)) in
  lift (Matrix.mult self.(A) xr).

Definition transMult (x : list R) : method t (list R) :=
  let! self := this in
  let! Atx := lift (Matrix.transMult self.(A) x) in
  lift (vmul Atx self.(r)).

Definition cols : method t nat :=
  let! self := this in ret (Matrix.cols self.(A)).

Definition rows : method t nat :=
  let! self := this in ret (Matrix.rows self.(A)).
End Class.
Arguments t R : clear implicits.
End MultRightMatrix.

(** *** class MultLeftRightMatrix *)
Module MultLeftRightMatrix.
Section Class.
Context {R : Type} `{Scalar R}.

Record t : Type := { A : MatrixBase R; right : list R; left : list R }.

Definition __init__ (A : MatrixBase R) (left right : list R) : result t :=
  if negb (Matrix.cols A =? length right)%nat
  then Raise (Exception "Matrix columns do not fit right vector length!")
  else if negb (Matrix.rows A =? length left)%nat
  then Raise (Exception "Matrix rows do not fit left vector length!")
  else Ok {| A := A; right := right; left := left |}.

Definition rows : method t nat :=
  let! self := this in ret (Matrix.rows self.(A)).

Definition cols : method t nat :=
  let! self := this in ret (Matrix.cols self.(A)).

Definition mult (x : list R) : method t (list R) :=
  let! self := this in
  let! xr := lift (vmul x self.(right)) in
  let! Axr := lift (Matrix.mult self.(A) xr) in
  lift (vmul Axr self.(left)).

Definition transMult (x : list R) : method t (list R) :=
  let! self := this in
  let! xl := lift (vmul x self.(left)) in
  let! Atxl := lift (Matrix.transMult self.(A) xl) in
  lift (vmul Atxl self.(right)).
End Class.
Arguments t R : clear implicits.
End MultLeftRightMatrix.

(** *** class Cm05Matrix

    The wrapped [A] is a 2-d numpy array here; [eigh] (scipy) and the
    elementwise [np.sqrt(1./ew)] are not part of this code and are taken
    as given.  The constructor also prints the time the decomposition
    took, which is left out.  In which order numpy adds the products of
    a [dot] is its own business; here they are added from the right,
    and nothing that is stated of this class depends on the order. *)
Module Cm05Matrix.
Section Class.
Context {R : Type} `{Scalar R}.

(** A 2-d [np.ndarray], row by row, with its [shape]. *)
Record ndarray : Type := { shape0 : nat; shape1 : nat; data : list (list R) }.

Variable eigh : ndarray -> result (list R * ndarray).
Variable sqrt_inv : R -> R.

(** [np.dot(x, M)] for a 1-d [x]: the vector-matrix product. *)
Definition dot_vm (x : list R) (M : ndarray) : result (list R) :=
  if negb (length x =? shape0 M)%nat
  then Raise (ValueError "shapes not aligned")
  else Ok (foldr vadd (replicate (shape1 M) rO) (zip_with vscale x (data M))).

(** [M.dot(w)] for a 1-d [w]: the matrix-vector product. *)
Definition dot_mv (M : ndarray) (w : list R) : result (list R) :=
  if negb (shape1 M =? length w)%nat
  then Raise (ValueError "shapes not aligned")
  else Ok (map (fun row => dot row w) (data M)).

(** [a * b] on two 1-d arrays, with numpy's broadcasting of a
    one-element operand. *)
Definition np_mul (a b : list R) : result (list R) :=
  if (length a =? length b)%nat then Ok (zip_with rmul a b)
  else match a, b with
       | [a0], _ => Ok (map (rmul a0) b)
       | _, [b0] => Ok (map (fun e => rmul e b0) a)
       | _, _ => Raise (ValueError "operands could not be broadcast together")
       end.

Record t : Type := {
  size : nat;
  ew : list R;
  EV : ndarray;
  mul : list R;
  A : ndarray
}.

Definition __init__ (A : ndarray) : result t :=
  if negb (shape0 A =? shape1 A)%nat
  then Raise (Exception "Matrix must by square (and symmetric)!")
  else match eigh A with
       | Raise e => Raise e
       | Ok (ew, EV) =>
           Ok {| size := shape0 A; ew := ew; EV := EV;
                 mul := map sqrt_inv ew; A := A |}
       end.

Definition rows : method t nat :=
  let! self := this in ret self.(size).

Definition cols : method t nat :=
  let! self := this in ret self.(size).

(** [np.transpose] and [.T] leave a 1-d array as it is. *)
Definition mult (x : list R) : method t (list R) :=
  let! self := this in
  let! xEV := lift (dot_vm x self.(EV)) in
  let! w := lift (np_mul xEV self.(mul)) in
  lift (dot_mv self.(EV) w).

Definition transMult (x : list R) : method t (list R) :=
  mult x.
End Class.
Arguments t R : clear implicits.
Arguments ndarray R : clear implicits.
End Cm05Matrix.

End Matrix.

(** *** The adapters as matrices

    Each adapter class derives from [pg.MatrixBase], so an adapter object
    can be wrapped by another adapter: seen through the interface, it is
    the matrix whose four members are the adapter's own methods. *)
Module AsMatrix.
Import Matrix.
Section Class.
Context {R : Type} `{Scalar R}.

(** [rows()] and [cols()] of the adapters only return. *)
Definition dimension (r : result nat) : nat :=
  match r with Ok n => n | Raise _ => 0 end.

Definition MultLeftMatrix_ (M : MultLeftMatrix.t R) : MatrixBase R :=
  {| rows := dimension (returns MultLeftMatrix.rows M);
     cols := dimension (returns MultLeftMatrix.cols M);
     mult := fun x => returns (MultLeftMatrix.mult x) M;
     transMult := fun x => returns (MultLeftMatrix.transMult x) M |}.

Definition MultRightMatrix_ (M : MultRightMatrix.t R) : MatrixBase R :=
  {| rows := dimension (returns MultRightMatrix.rows M);
     cols := dimension (returns MultRightMatrix.cols M);
     mult := fun x => returns (MultRightMatrix.mult x) M;
     transMult := fun x => returns (MultRightMatrix.transMult x) M |}.

Definition MultLeftRightMatrix_ (M : MultLeftRightMatrix.t R) : MatrixBase R :=
  {| rows := dimension (returns MultLeftRightMatrix.rows M);
     cols := dimension (returns MultLeftRightMatrix.cols M);
     mult := fun x => returns (MultLeftRightMatrix.mult x) M;
     transMult := fun x => returns (MultLeftRightMatrix.transMult x) M |}.
End Class.
End AsMatrix.

(** ** mplviewer/dataview.py *)

Module DataView.

(** Values are float64.  The entries of [xvec] and [yvec] only serve as
    dictionary keys and are sorted by [np.unique]; the two vectors are
    taken to be Python lists of ints (sensor numbers).  A vector of
    floats is not modelled.

    [truthy a] is [bool(a)] for a float: anything but zero. *)
Definition truthy (a : float) : bool := negb (PrimFloat.eqb a 0%float).

(** numpy turns a list into an array before it sorts it, and the array
    has one type for all entries: of a Python int it is [int64] if the
    int fits, else [uint64] if it fits, else [object]; of a list it is
    the common type of its entries ([np.promote_types]), where [int64]
    and [uint64] together give [float64]; of the empty list it is
    [float64]. *)
Inductive dtype : Type := int64 | uint64 | float64 | object.

Definition dtype_of_int (z : Z) : dtype :=
  if ((- 2 ^ 63 <=? z) && (z <? 2 ^ 63))%Z then int64
  else if ((0 <=? z) && (z <? 2 ^ 64))%Z then uint64
  else object.

Definition promote_types (a b : dtype) : dtype :=
  match a, b with
  | object, _ | _, object => object
  | int64, int64 => int64
  | uint64, uint64 => uint64
  | _, _ => float64
  end.

Definition dtype_of (l : list Z) : dtype :=
  match l with
  | [] => float64
  | z :: l' =>
      foldl (fun d z' => promote_types d (dtype_of_int z')) (dtype_of_int z) l'
  end.

(** An int stored in a [float64] array is rounded to the nearest
    binary64 number (ties to even).  As dictionary keys, Python compares
    numbers by value, a float key being found by the int it equals and
    by no other; so a key is written here as the integer it equals,
    whatever its type. *)
Definition round64 (z : Z) : Z :=
  match SpecFloat.binary_normalize 53 1024 z 0 false with
  | SpecFloat.S754_finite s m e =>
      if s then (- Z.shiftl (Zpos m) e)%Z else Z.shiftl (Zpos m) e
  | _ => 0%Z
  end.

Definition astype (d : dtype) (z : Z) : Z :=
  match d with
  | float64 => round64 z
  | _ => z
  end.

(** [np.array(l)] and [np.hstack((x, y))], which makes an array of each
    list and then one array of the two, of their common type. *)
Definition np_array (l : list Z) : list Z := map (astype (dtype_of l)) l.

Definition np_hstack (x y : list Z) : list Z :=
  map (astype (promote_types (dtype_of x) (dtype_of y)))
    (np_array x ++ np_array y).

(** [np.unique] of an array: the sorted distinct entries. *)
Definition np_unique (a : list Z) : list Z := merge_sort Z.le (remove_dups a).

Definition enumerate {T} (l : list T) : list (nat * T) :=
  imap (fun ii x => (ii, x)) l.

(** [{xx: ii for ii, xx in enumerate(u)}]: entries are stored in turn, a
    later one replacing an earlier one under the same key. *)
Definition dict_of_enumerate (u : list Z) : gmap Z nat :=
  foldl (fun d p => <[p.2 := p.1]> d) ∅ (enumerate u).

Definition getitem_list {T} (l : list T) (i : nat) : result T :=
  match l !! i with
  | Some x => Ok x
  | None => Raise (IndexError "index out of range")
  end.

Definition getitem_dict (d : gmap Z nat) (k : Z) : result nat :=
  match d !! k with
  | Some v => Ok v
  | None => Raise (KeyError (pretty k))
  end.

(** [A[r, c]] and [A[r, c] = v] on a 2-d array. *)
Definition getitem2 (A : list (list float)) (r c : nat) : result float :=
  match A !! r with
  | Some row => getitem_list row c
  | None => Raise (IndexError "index out of bounds")
  end.

Definition setitem2 (A : list (list float)) (r c : nat) (v : float)
  : result (list (list float)) :=
  match A !! r with
  | Some row =>
      if (c <? length row)%nat then Ok (<[r := <[c := v]> row]> A)
      else Raise (IndexError "index out of bounds")
  | None => Raise (IndexError "index out of bounds")
  end.

Definition np_zeros (nr nc : nat) : list (list float) :=
  replicate nr (replicate nc 0%float).

Inductive output : Type :=
| print_not_shown (n nshow : nat)
| print_list (l : list nat).

(** The locals of [generateMatrix] that are updated in place, and what
    it prints. *)
Record frame : Type := {
  A : list (list float);
  inot : list nat;
  stdout : list output
}.

Definition set_A (A' : list (list float)) (f : frame) : frame :=
  {| A := A'; inot := f.(inot); stdout := f.(stdout) |}.
Definition set_inot (l : list nat) (f : frame) : frame :=
  {| A := f.(A); inot := l; stdout := f.(stdout) |}.
Definition append_inot (i : nat) (f : frame) : frame :=
  {| A := f.(A); inot := f.(inot) ++ [i]; stdout := f.(stdout) |}.
Definition print (o : output) (f : frame) : frame :=
  {| A := f.(A); inot := f.(inot); stdout := f.(stdout) ++ [o] |}.

Definition nshow_of (xvec yvec : list Z) (vals : list float) : nat :=
  Nat.min (Nat.min (length xvec) (length yvec)) (length vals).

Definition generateMatrix_loop (xvec yvec : list Z) (vals : list float)
    (xmap ymap : gmap Z nat) (i : nat) : method frame unit :=
  let! xi := lift (getitem_list xvec i) in
  let! yi := lift (getitem_list yvec i) in
  let! r := lift (getitem_dict ymap yi) in
  let! c := lift (getitem_dict xmap xi) in
  let! f := this in
  let! a := lift (getitem2 f.(A) r c) in
  (if truthy a then assign (append_inot i) else ret tt) ;;;
  let! v := lift (getitem_list vals i) in
  let! f := this in
  let! A' := lift (setitem2 f.(A) r c v) in
  assign (set_A A').

Definition generateMatrix (xvec yvec : list Z) (vals : list float) (full : bool)
  : method frame (list (list float) * gmap Z nat * gmap Z nat) :=
  let xmap := if full then dict_of_enumerate (np_unique (np_hstack xvec yvec))
              else dict_of_enumerate (np_unique (np_array xvec)) in
  let ymap := if full then xmap
              else dict_of_enumerate (np_unique (np_array yvec)) in
  assign (set_A (np_zeros (size ymap) (size xmap))) ;;;
  assign (set_inot []) ;;;
  let nshow := nshow_of xvec yvec vals in
  for_ (seq 0 nshow) (generateMatrix_loop xvec yvec vals xmap ymap) ;;;
  let! f := this in
  (if (0 <? length f.(inot))%nat then
     assign (print (print_not_shown (length f.(inot)) nshow)) ;;;
     if (length f.(inot) <? 30)%nat then assign (print (print_list f.(inot)))
     else ret tt
   else ret tt) ;;;
  let! f := this in
  ret (f.(A), xmap, ymap).

(** The frame a call starts with. *)
Definition fresh : frame := {| A := []; inot := []; stdout := [] |}.

(** *** patchMatrix

    matplotlib is seen through the calls made on it: [plt.subplots()]
    creates a figure with one axes, [ax.add_collection] draws. *)

Inductive pyobj : Type :=
| PyNone
| PyBool (b : bool)
| PyStr (s : string)
| PyAxes (id : nat).

(** [o is None] *)
Definition is_None (o : pyobj) : bool :=
  match o with PyNone => true | _ => false end.

Definition bool_of (o : pyobj) : bool :=
  match o with
  | PyNone => false
  | PyBool b => b
  | PyStr s => negb (String.eqb s "")
  | PyAxes _ => true
  end.

Inductive norm : Type :=
| LogNorm (vmin vmax : float)
| Normalize (vmin vmax : float).

Record Rectangle : Type := { xy : float * float; width : float; height : float }.

Inductive mpl_call : Type :=
| plt_subplots
| add_collection (ax : nat) (patches : list Rectangle)
| set_edgecolor
| set_linewidths (w : float)
| set_cmap (c : pyobj)
| set_norm (n : norm)
| set_array (a : list float)
| set_clim (cMin cMax : float)
| updateAxes_ (ax : nat)
| createColorbar (cMin cMax : float) (nLevs : nat) (label : pyobj).

(** The locals [recs] and [vals] of [patchMatrix], and matplotlib. *)
Record pframe : Type := {
  recs : list Rectangle;
  vals : list float;
  mpl : list mpl_call
}.

Definition append_recs (r : Rectangle) (f : pframe) : pframe :=
  {| recs := f.(recs) ++ [r]; vals := f.(vals); mpl := f.(mpl) |}.
Definition append_vals (v : float) (f : pframe) : pframe :=
  {| recs := f.(recs); vals := f.(vals) ++ [v]; mpl := f.(mpl) |}.
Definition clear_locals (f : pframe) : pframe :=
  {| recs := []; vals := []; mpl := f.(mpl) |}.
Definition call (c : mpl_call) : method pframe unit :=
  assign (fun f => {| recs := f.(recs); vals := f.(vals); mpl := f.(mpl) ++ [c] |}).

(** [fig, ax = plt.subplots()]: a new figure, whose axes is returned. *)
Definition subplots : method pframe pyobj :=
  let! f := this in
  call plt_subplots ;;;
  ret (PyAxes (length f.(mpl))).

(** [ax.add_collection(pp)]: only an axes has the attribute. *)
Definition ax_add_collection (ax : pyobj) (pp : list Rectangle) : method pframe nat :=
  match ax with
  | PyAxes id => call (add_collection id pp) ;;; ret id
  | PyNone =>
      throw (AttributeError "'NoneType' object has no attribute 'add_collection'")
  | PyBool _ =>
      throw (AttributeError "'bool' object has no attribute 'add_collection'")
  | PyStr _ =>
      throw (AttributeError "'str' object has no attribute 'add_collection'")
  end.

(** [np.nonzero(A != 0)]: the row and column numbers of the entries
    that differ from zero, row by row. *)
Definition np_nonzero (A : list (list float)) : list nat * list nat :=
  let cells := concat (imap (fun r row => imap (fun c a => (r, c, a)) row) A) in
  let nz := List.filter (fun p => truthy p.2) cells in
  (map (fun p => p.1.1) nz, map (fun p => p.1.2) nz).

Section Numpy.
(** [np.min] and [np.max] of the masked array [mat] built from [A]; they
    are numpy's and may raise (on an array without entries). *)
Variables np_min np_max : list (list float) -> result float.

Definition patchMatrix (A : list (list float)) (xmap ymap : option (gmap Z nat))
    (ax : pyobj) (cMin cMax : option float) (logScale : option bool)
    (label : pyobj) (dx : float) (kwargs : gmap string pyobj)
  : method pframe (pyobj * option nat) :=
  let mat := A in
  let! cMin := match cMin with
               | None => lift (np_min mat)
               | Some c => ret c
               end in
  let! cMax := match cMax with
               | None => lift (np_max mat)
               | Some c => ret c
               end in
  let logScale := match logScale with
                  | None => PrimFloat.ltb 0%float cMin
                  | Some b => b
                  end in
  let norm := if logScale then LogNorm cMin cMax else Normalize cMin cMax in
  let! ax := if is_None (PyStr "ax") then subplots else ret ax in
  let '(iy, ix) := np_nonzero A in
  assign clear_locals ;;;
  for_ (seq 0 (length ix)) (fun i =>
    let! ixi := lift (getitem_list ix i) in
    let! iyi := lift (getitem_list iy i) in
    assign (append_recs {| xy := (PrimFloat.sub (of_nat ixi) (PrimFloat.div dx 2%float),
                                  PrimFloat.sub (of_nat iyi) 0.5%float);
                           width := dx; height := 1%float |}) ;;;
    let! a := lift (getitem2 A iyi ixi) in
    assign (append_vals a)) ;;;
  let! f := this in
  let pp := f.(recs) in
  let! col := ax_add_collection ax pp in
  call set_edgecolor ;;;
  call (set_linewidths 0%float) ;;;
  let! kwargs := match kwargs !! "cmap" with
                 | Some c => call (set_cmap c) ;;; ret (delete "cmap" kwargs)
                 | None => ret kwargs
                 end in
  call (set_norm norm) ;;;
  let! f := this in
  call (set_array f.(vals)) ;;;
  call (set_clim cMin cMax) ;;;
  let! axid := match ax with
               | PyAxes id => call (updateAxes_ id) ;;; ret id
               | _ => throw (AttributeError "not an axes")
               end in
  let '(colorBar, kwargs) := pop_default kwargs "colorBar" (PyBool true) in
  let! cbar := if bool_of colorBar
               then let! f := this in
                    call (createColorbar cMin cMax 5 label) ;;;
                    ret (Some (length f.(mpl)))
               else ret None in
  ret (ax, cbar).
End Numpy.

(** Nothing drawn, no figure, no locals yet. *)
Definition blank : pframe := {| recs := []; vals := []; mpl := [] |}.

End DataView.

(** ** physics/ert/ves.py *)

Module VES.

(** The keys of a dictionary, and the item stored under a key in the
    list of its items. *)
Inductive dkey : Type :=
| KInt (i : BinNums.Z)
| KStr (s : string).

#[export] Instance dkey_eq_dec : EqDecision dkey.
Proof. solve_decision. Defined.

Fixpoint item {V : Type} (k : dkey) (d : list (dkey * V)) : option V :=
  match d with
  | [] => None
  | (k', v) :: d' => if decide (k' = k) then Some v else item k d'
  end.

(** The Python values the manager handles.  Numbers are floats (the ints
    that occur, like a number of layers or the literal [3], enter float
    arithmetic only); [VVec] is a numpy array or a [pg.RVector], [VList]
    a Python list, [VDict] a dictionary, given by its items (the keys
    are distinct). *)
Inductive value : Type :=
| VNone
| VBool (b : bool)
| VNum (x : float)
| VStr (s : string)
| VVec (v : list float)
| VList (l : list value)
| VDict (d : list (dkey * value)).

Definition is_None (v : value) : bool :=
  match v with VNone => true | _ => false end.

(** [v == 'text'] *)
Definition eq_str (v : value) (s : string) : bool :=
  match v with VStr s' => String.eqb s' s | _ => false end.

(** [v is False] *)
Definition is_False (v : value) : bool :=
  match v with VBool false => true | _ => false end.

(** A number, or a bool taken as one ([True] is 1). *)
Definition number (v : value) : option float :=
  match v with
  | VNum x => Some x
  | VBool b => Some (if b then 1%float else 0%float)
  | _ => None
  end.

(** Arithmetic on numbers and arrays, elementwise, a number or an array
    of one entry being applied to every entry. *)
Definition arith (op : float -> float -> float) (name : string) (a b : value)
  : result value :=
  match a, b with
  | VVec v, VVec w =>
      if (length v =? length w)%nat then Ok (VVec (zip_with op v w))
      else match v, w with
           | [x], _ => Ok (VVec (map (fun y => op x y) w))
           | _, [y] => Ok (VVec (map (fun x => op x y) v))
           | _, _ => Raise (ValueError "operands could not be broadcast together")
           end
  | VVec v, _ =>
      match number b with
      | Some y => Ok (VVec (map (fun x => op x y) v))
      | None => Raise (TypeError ("unsupported operand type(s) for " ++ name))
      end
  | _, VVec w =>
      match number a with
      | Some x => Ok (VVec (map (fun y => op x y) w))
      | None => Raise (TypeError ("unsupported operand type(s) for " ++ name))
      end
  | _, _ =>
      match number a, number b with
      | Some x, Some y => Ok (VNum (op x y))
      | _, _ => Raise (TypeError ("unsupported operand type(s) for " ++ name))
      end
  end.

Definition truediv : value -> value -> result value := arith PrimFloat.div "/".
Definition times : value -> value -> result value := arith PrimFloat.mul "*".

(** [a + b]: two lists, or two strings, are concatenated. *)
Definition plus (a b : value) : result value :=
  match a, b with
  | VList l1, VList l2 => Ok (VList (l1 ++ l2))
  | VStr s1, VStr s2 => Ok (VStr (s1 ++ s2))
  | _, _ => arith PrimFloat.add "+" a b
  end.

Definition len (v : value) : result nat :=
  match v with
  | VVec l => Ok (length l)
  | VList l => Ok (length l)
  | VStr s => Ok (String.length s)
  | VDict d => Ok (length d)
  | _ => Raise (TypeError "object has no len()")
  end.

(** [v[i]] for a literal index [i]: a sequence is indexed, a dictionary
    is looked up under the key [i]. *)
Definition getitem (v : value) (i : nat) : result value :=
  match v with
  | VVec l => match l !! i with
              | Some x => Ok (VNum x)
              | None => Raise (IndexError "index out of range")
              end
  | VList l => match l !! i with
               | Some x => Ok x
               | None => Raise (IndexError "list index out of range")
               end
  | VStr s => match String.get i s with
              | Some c => Ok (VStr (String c EmptyString))
              | None => Raise (IndexError "string index out of range")
              end
  | VDict d => match item (KInt (Z.of_nat i)) d with
               | Some x => Ok x
               | None => Raise (KeyError (pretty i))
               end
  | _ => Raise (TypeError "object is not subscriptable")
  end.

(** Modelled from the spec: [pg.RVector(n, x)], the native vector of [n]
    entries all equal to the number [x]. *)
Definition RVector (n : nat) (x : value) : result value :=
  match x with
  | VNum x => Ok (VVec (replicate n x))
  | _ => Raise (TypeError "RVector: a number is expected")
  end.

(** The calls into the native library (and [print]), in the order they
    are made.  An object the library creates is named by the position of
    its creation in this history. *)
Inductive native : Type :=
| DC1dModelling (nlay ab2 mn2 : value)
| DC1dRhoModelling (z ab2 mn2 : value)
| createMesh1DBlock (nlay : value)
| createMesh1D (nCells : nat)
| setMesh (fop mesh : nat)
| region_setParameters (fop region : nat) (start lower upper trans : value)
| region_setStartValue (fop region : nat) (v : value)
| RInversion (data : value) (fop : option nat) (verbose : bool)
| RTransLog
| setTransData (inv trans : nat)
| setMarquardtScheme (inv : nat) (lambdaFactor : value)
| setRobustData (inv : nat) (robust : value)
| setRelativeError (inv : nat) (err : value)
| setModel (inv : nat) (model : value)
| setLambda (inv : nat) (lam : value)
| runChi1 (inv : nat)
| run (inv : nat)
| echoStatus (inv : nat)
| response (fop : nat) (model : value)
| randn (n : nat)
| print (v : value).

(** The attributes of a [VESManager].  [thkBounds], [rhoBounds] and
    [trans] hold whatever [createModelTrans] was given, by default lists
    (start, min, max) and a list of two names.  [dataTrans], [dataToFit]
    and [resDistribution] exist once they have been assigned. *)
Record t : Type := {
  verbose : value;
  type : value;
  ab2 : value;
  mn2 : value;
  Z : value;
  FOP : option nat;
  INV : option nat;
  startmodel : value;
  thkBounds : value;
  rhoBounds : value;
  trans : value;
  dataTrans : option nat;
  dataToFit : option value;
  resDistribution : option value
}.

(** A manager and the native library it drives. *)
Record state : Type := { self : t; world : list native }.

Definition set_FOP (h : nat) (s : state) : state :=
  {| self := {| verbose := s.(self).(verbose); type := s.(self).(type);
                ab2 := s.(self).(ab2); mn2 := s.(self).(mn2); Z := s.(self).(Z);
                FOP := Some h; INV := s.(self).(INV);
                startmodel := s.(self).(startmodel);
                thkBounds := s.(self).(thkBounds); rhoBounds := s.(self).(rhoBounds);
                trans := s.(self).(trans); dataTrans := s.(self).(dataTrans);
                dataToFit := s.(self).(dataToFit);
                resDistribution := s.(self).(resDistribution) |};
     world := s.(world) |}.

Definition set_INV (h : nat) (s : state) : state :=
  {| self := {| verbose := s.(self).(verbose); type := s.(self).(type);
                ab2 := s.(self).(ab2); mn2 := s.(self).(mn2); Z := s.(self).(Z);
                FOP := s.(self).(FOP); INV := Some h;
                startmodel := s.(self).(startmodel);
                thkBounds := s.(self).(thkBounds); rhoBounds := s.(self).(rhoBounds);
                trans := s.(self).(trans); dataTrans := s.(self).(dataTrans);
                dataToFit := s.(self).(dataToFit);
                resDistribution := s.(self).(resDistribution) |};
     world := s.(world) |}.

Definition set_startmodel (m : value) (s : state) : state :=
  {| self := {| verbose := s.(self).(verbose); type := s.(self).(type);
                ab2 := s.(self).(ab2); mn2 := s.(self).(mn2); Z := s.(self).(Z);
                FOP := s.(self).(FOP); INV := s.(self).(INV);
                startmodel := m;
                thkBounds := s.(self).(thkBounds); rhoBounds := s.(self).(rhoBounds);
                trans := s.(self).(trans); dataTrans := s.(self).(dataTrans);
                dataToFit := s.(self).(dataToFit);
                resDistribution := s.(self).(resDistribution) |};
     world := s.(world) |}.

Definition set_modelTrans (thk rho tr : value) (s : state) : state :=
  {| self := {| verbose := s.(self).(verbose); type := s.(self).(type);
                ab2 := s.(self).(ab2); mn2 := s.(self).(mn2); Z := s.(self).(Z);
                FOP := s.(self).(FOP); INV := s.(self).(INV);
                startmodel := s.(self).(startmodel);
                thkBounds := thk; rhoBounds := rho;
                trans := tr; dataTrans := s.(self).(dataTrans);
                dataToFit := s.(self).(dataToFit);
                resDistribution := s.(self).(resDistribution) |};
     world := s.(world) |}.

Definition set_dataTrans (h : nat) (s : state) : state :=
  {| self := {| verbose := s.(self).(verbose); type := s.(self).(type);
                ab2 := s.(self).(ab2); mn2 := s.(self).(mn2); Z := s.(self).(Z);
                FOP := s.(self).(FOP); INV := s.(self).(INV);
                startmodel := s.(self).(startmodel);
                thkBounds := s.(self).(thkBounds); rhoBounds := s.(self).(rhoBounds);
                trans := s.(self).(trans); dataTrans := Some h;
                dataToFit := s.(self).(dataToFit);
                resDistribution := s.(self).(resDistribution) |};
     world := s.(world) |}.

Definition set_dataToFit (d : value) (s : state) : state :=
  {| self := {| verbose := s.(self).(verbose); type := s.(self).(type);
                ab2 := s.(self).(ab2); mn2 := s.(self).(mn2); Z := s.(self).(Z);
                FOP := s.(self).(FOP); INV := s.(self).(INV);
                startmodel := s.(self).(startmodel);
                thkBounds := s.(self).(thkBounds); rhoBounds := s.(self).(rhoBounds);
                trans := s.(self).(trans); dataTrans := s.(self).(dataTrans);
                dataToFit := Some d;
                resDistribution := s.(self).(resDistribution) |};
     world := s.(world) |}.

Definition set_resDistribution (r : value) (s : state) : state :=
  {| self := {| verbose := s.(self).(verbose); type := s.(self).(type);
                ab2 := s.(self).(ab2); mn2 := s.(self).(mn2); Z := s.(self).(Z);
                FOP := s.(self).(FOP); INV := s.(self).(INV);
                startmodel := s.(self).(startmodel);
                thkBounds := s.(self).(thkBounds); rhoBounds := s.(self).(rhoBounds);
                trans := s.(self).(trans); dataTrans := s.(self).(dataTrans);
                dataToFit := s.(self).(dataToFit);
                resDistribution := Some r |};
     world := s.(world) |}.

Definition log (c : native) (s : state) : state :=
  {| self := s.(self); world := s.(world) ++ [c] |}.

Definition default_thkBounds : value := VList [VNum 10; VNum 0.1; VNum 30].
Definition default_modelBounds : value :=
  VList [VNum 10; VNum 1.0; VNum 10000].
Definition default_trans : value := VList [VStr "log"; VStr "log"].

Section Native.
(** What the library hands back: [answer h] is the value returned by the
    last call of the history [h].  numpy's [median] and [max] are
    functions of their argument.  All these calls are taken to return. *)
Variable answer : list native -> value.
Variables np_median np_max : value -> value.

(** A call that creates a native object: its name is returned. *)
Definition new (c : native) : method state nat :=
  let! s := this in
  assign (log c) ;;;
  ret (length s.(world)).

(** Any other call, with the value it returns. *)
Definition extern (c : native) : method state value :=
  assign (log c) ;;;
  let! s := this in
  ret (answer s.(world)).

(** [self.FOP.m(...)] and [self.INV.m(...)]: [None] has no attributes.
    The method is looked up before its arguments are evaluated. *)
Definition on_FOP {T} (name : string) (m : nat -> method state T) : method state T :=
  let! s := this in
  match s.(self).(FOP) with
  | Some fop => m fop
  | None => throw (AttributeError ("'NoneType' object has no attribute '" ++ name ++ "'"))
  end.

Definition on_INV {T} (name : string) (m : nat -> method state T) : method state T :=
  let! s := this in
  match s.(self).(INV) with
  | Some inv => m inv
  | None => throw (AttributeError ("'NoneType' object has no attribute '" ++ name ++ "'"))
  end.

(** [self.FOP.region(r).setParameters(b[0], b[1], b[2], self.trans[k])]
    for the bounds [b] of the manager: the four arguments are read in
    turn, then the call is made. *)
Definition setParameters (fop r : nat) (b : t -> value) (k : nat)
  : method state value :=
  let! s := this in
  let! start := lift (getitem (b s.(self)) 0) in
  let! lower := lift (getitem (b s.(self)) 1) in
  let! upper := lift (getitem (b s.(self)) 2) in
  let! tr := lift (getitem s.(self).(trans) k) in
  extern (region_setParameters fop r start lower upper tr).

Definition applyModelTrans : method state unit :=
  let! s := this in
  if negb (bool_decide (is_Some s.(self).(FOP)))
  then throw (Exception
    "initialize forward operator before appending proper boundaries for the model transformation")
  else
    if eq_str s.(self).(type) "smooth" then
      on_FOP "region" (fun fop => setParameters fop 0 rhoBounds 1) ;;;
      ret tt
    else if eq_str s.(self).(type) "block" then
      on_FOP "region" (fun fop => setParameters fop 0 thkBounds 0) ;;;
      on_FOP "region" (fun fop => setParameters fop 1 rhoBounds 1) ;;;
      ret tt
    else ret tt.

Definition createModelTrans (thkBounds modelBounds trans : value)
  : method state unit :=
  assign (set_modelTrans thkBounds modelBounds trans) ;;;
  let! s := this in
  if bool_decide (is_Some s.(self).(FOP)) then applyModelTrans else ret tt.

(** [__init__]: the attributes are assigned in turn on the new object,
    whose model transformation is then set by [createModelTrans()]. *)
Definition __init__ (ab2 z mn2 Type_ verbose : value) : method (list native) t :=
  let! mn2 := if is_None mn2 then lift (truediv ab2 (VNum 3)) else ret mn2 in
  let! w := this in
  let self0 := {| verbose := verbose; type := Type_; ab2 := ab2; mn2 := mn2;
                  Z := z; FOP := None; INV := None; startmodel := VNone;
                  thkBounds := default_thkBounds; rhoBounds := default_modelBounds;
                  trans := default_trans; dataTrans := None; dataToFit := None;
                  resDistribution := None |} in
  match createModelTrans default_thkBounds default_modelBounds default_trans
          {| self := self0; world := w |} with
  | (Ok _, s) => assign (fun _ => s.(world)) ;;; ret s.(self)
  | (Raise e, s) => assign (fun _ => s.(world)) ;;; throw e
  end.

(** The local [mesh1D] is bound in one of the two branches only. *)
Definition createFOP : method state unit :=
  let! s := this in
  let! mesh1D :=
    if eq_str s.(self).(type) "block" then
      let! fop := new (DC1dModelling s.(self).(Z) s.(self).(ab2) s.(self).(mn2)) in
      assign (set_FOP fop) ;;;
      let! mesh := new (createMesh1DBlock s.(self).(Z)) in
      ret (Some mesh)
    else ret None in
  let! mesh1D :=
    if eq_str s.(self).(type) "smooth" then
      let! fop := new (DC1dRhoModelling s.(self).(Z) s.(self).(ab2) s.(self).(mn2)) in
      assign (set_FOP fop) ;;;
      let! n := lift (len s.(self).(Z)) in
      let! mesh := new (createMesh1D (n + 1)) in
      ret (Some mesh)
    else ret mesh1D in
  on_FOP "setMesh" (fun fop =>
    match mesh1D with
    | Some mesh => extern (setMesh fop mesh)
    | None => throw (UnboundLocalError
                       "local variable 'mesh1D' referenced before assignment")
    end) ;;;
  applyModelTrans.

(** [simulate] is a static method: of the state it only touches the
    native library. *)
Definition simulate (synmodel ab2 mn2 errPerc : value) : method state value :=
  let! thk := lift (getitem synmodel 0) in
  let! res := lift (getitem synmodel 1) in
  let! mn2 := if is_None mn2 then lift (truediv ab2 (VNum 3)) else ret mn2 in
  let! n := lift (len res) in
  let! FOP := new (DC1dModelling (VNum (of_nat n)) ab2 mn2) in
  let! model := lift (plus thk res) in
  let! syndata := extern (response FOP model) in
  let! n := lift (len syndata) in
  let! noise := extern (randn n) in
  let! noise := lift (times noise errPerc) in
  let! noise := lift (truediv noise (VNum 100)) in
  let! noise := lift (plus noise (VNum 1)) in
  let! syndata := lift (times syndata noise) in
  ret syndata.

Definition applyDataTrans : method state unit :=
  let! tr := new RTransLog in
  assign (set_dataTrans tr) ;;;
  on_INV "setTransData" (fun inv => extern (setTransData inv tr)) ;;;
  ret tt.

Definition getDepth : method state value :=
  let! s := this in
  lift (truediv (np_max s.(self).(ab2)) (VNum 3)).

Definition createStartModel (data : value) : method state unit :=
  let! s := this in
  if eq_str s.(self).(type) "smooth" then
    let! n := lift (len s.(self).(Z)) in
    let! m := lift (RVector (n + 1) (np_median data)) in
    assign (set_startmodel m)
  else
    let! d := getDepth in
    let! d := lift (truediv d s.(self).(Z)) in
    let! d := lift (truediv d (VNum 2)) in
    assign (set_startmodel (VList [d; np_median data])).

Definition createINV (data relErrorP startmodel : value) (kwargs : gmap string value)
  : method state unit :=
  let! s := this in
  (if negb (bool_decide (is_Some s.(self).(FOP))) then createFOP else ret tt) ;;;
  let! s := this in
  let! inv := new (RInversion data s.(self).(FOP) false) in
  assign (set_INV inv) ;;;
  applyDataTrans ;;;
  let! s := this in
  let! kwargs :=
    if eq_str s.(self).(type) "block" then
      let! ' (lf, kwargs) := lift (pop kwargs "lambdaFactor") in
      extern (print lf) ;;;
      let '(lf, kwargs) := pop_default kwargs "lambdaFactor" (VNum 0.8) in
      on_INV "setMarquardtScheme" (fun inv => extern (setMarquardtScheme inv lf)) ;;;
      let '(rb, kwargs) := pop_default kwargs "robust" (VBool false) in
      on_INV "setRobustData" (fun inv => extern (setRobustData inv rb)) ;;;
      ret kwargs
    else ret kwargs in
  let! err := lift (truediv relErrorP (VNum 100)) in
  on_INV "setRelativeError" (fun inv => extern (setRelativeError inv err)) ;;;
  (if negb (is_None startmodel) then assign (set_startmodel startmodel) else ret tt) ;;;
  let! s := this in
  (if is_None s.(self).(VES.startmodel) then createStartModel data else ret tt) ;;;
  let! s := this in
  if eq_str s.(self).(type) "smooth" then
    on_INV "setModel" (fun inv => extern (setModel inv s.(self).(VES.startmodel))) ;;;
    ret tt
  else
    let! m0 := lift (getitem s.(self).(VES.startmodel) 0) in
    on_FOP "region" (fun fop => extern (region_setStartValue fop 0 m0)) ;;;
    let! m1 := lift (getitem s.(self).(VES.startmodel) 1) in
    on_FOP "region" (fun fop => extern (region_setStartValue fop 1 m1)) ;;;
    ret tt.

Definition invert (data startmodel relErrorP lam : value) (kwargs : gmap string value)
  : method state value :=
  assign (set_dataToFit data) ;;;
  let! s := this in
  (if negb (bool_decide (is_Some s.(self).(INV)))
   then createINV data relErrorP startmodel kwargs else ret tt) ;;;
  let! s := this in
  (if eq_str s.(self).(type) "smooth" && is_None lam then
     let! r := on_INV "runChi1" (fun inv => extern (runChi1 inv)) in
     assign (set_resDistribution r)
   else
     let lam := if is_None lam then VNum 1000 else lam in
     on_INV "setLambda" (fun inv => extern (setLambda inv lam)) ;;;
     let! r := on_INV "run" (fun inv => extern (run inv)) in
     assign (set_resDistribution r)) ;;;
  let! s := this in
  (if is_False s.(self).(verbose)
   then on_INV "echoStatus" (fun inv => extern (echoStatus inv)) ;;; ret tt
   else ret tt) ;;;
  let! s := this in
  match s.(self).(resDistribution) with
  | Some r => ret r
  | None => throw (AttributeError "'VESManager' object has no attribute 'resDistribution'")
  end.
End Native.

End VES.

(** *** VESManager.splitBlockModel and showFit *)
Module VESResults.
Import VES.

(** Where a slice bound [z] falls in a sequence of [n] entries: a
    negative bound counts from the end, and bounds are clipped. *)
Definition slice_bound (n : nat) (z : BinNums.Z) : nat :=
  if (z <? 0)%Z then Z.to_nat (Z.max 0 (Z.of_nat n + z))
  else Nat.min (Z.to_nat z) n.

(** [v[:z]] and [v[z:]] *)
Definition slice_to (v : value) (z : BinNums.Z) : result value :=
  match v with
  | VVec l => Ok (VVec (take (slice_bound (length l) z) l))
  | VList l => Ok (VList (take (slice_bound (length l) z) l))
  | VStr s => Ok (VStr (String.substring 0 (slice_bound (String.length s) z) s))
  | _ => Raise (TypeError "object is not subscriptable")
  end.

Definition slice_from (v : value) (z : BinNums.Z) : result value :=
  match v with
  | VVec l => Ok (VVec (drop (slice_bound (length l) z) l))
  | VList l => Ok (VList (drop (slice_bound (length l) z) l))
  | VStr s =>
      let b := slice_bound (String.length s) z in
      Ok (VStr (String.substring b (String.length s - b) s))
  | _ => Raise (TypeError "object is not subscriptable")
  end.

Section Builtins.
(** Python's [int()], which is not part of this code. *)
Variable int_ : value -> result BinNums.Z.

Definition splitBlockModel : method state (value * value) :=
  let! s := this in
  let! n := lift (int_ s.(self).(Z)) in
  let z := (n - 1)%Z in
  match s.(self).(resDistribution) with
  | None =>
      throw (AttributeError
               "'VESManager' object has no attribute 'resDistribution'")
  | Some r =>
      let! thk := lift (slice_to r z) in
      let! rho := lift (slice_from r z) in
      ret (thk, rho)
  end.
End Builtins.

(** *** VESManager.showFit

    matplotlib and the inversion as [showFit] drives them: the calls
    made, in order.  They are taken to return. *)
Inductive plot_call : Type :=
| loglog (ax : nat) (x y fmt : value) (label : string)
| INV_response (inv : nat)
| set_ylim (ax : nat) (top bottom : value)
| grid (ax : nat)
| set_xlabel (ax : nat) (label : string)
| set_ylabel (ax : nat) (label : string)
| legend (ax : nat).

Record canvas : Type := { manager : t; drawn : list plot_call }.

Definition draw (c : plot_call) : method canvas unit :=
  assign (fun s => {| manager := s.(manager); drawn := s.(drawn) ++ [c] |}).

(** [ax.m(...)]: the attribute is looked up before the arguments are
    evaluated, and [None] has none. *)
Definition on_ax {T} (ax : option nat) (name : string)
    (m : nat -> method canvas T) : method canvas T :=
  match ax with
  | Some a => m a
  | None =>
      throw (AttributeError
               ("'NoneType' object has no attribute '" ++ name ++ "'"))
  end.

(** [v is True] *)
Definition is_True (v : value) : bool :=
  match v with VBool true => true | _ => false end.

Section Plotting.
(** What [self.INV.response()] returns after the calls made so far, and
    Python's [max] and [min]. *)
Variable response_of : list plot_call -> value.
Variables py_max py_min : value -> result value.

Definition showFit (ax : option nat) (color marker syn : value)
  : method canvas (option nat) :=
  (if is_True syn then
     on_ax ax "loglog" (fun a =>
       let! s := this in
       match s.(manager).(dataToFit) with
       | Some d =>
           draw (loglog a d s.(manager).(ab2) (VStr "bx-") "measured/synthetic")
       | None =>
           throw (AttributeError
                    "'VESManager' object has no attribute 'dataToFit'")
       end)
   else ret tt) ;;;
  on_ax ax "loglog" (fun a =>
    let! s := this in
    match s.(manager).(INV) with
    | Some inv =>
        draw (INV_response inv) ;;;
        let! s' := this in
        draw (loglog a (response_of s'.(drawn)) s.(manager).(ab2) color "fitted")
    | None =>
        throw (AttributeError "'NoneType' object has no attribute 'response'")
    end) ;;;
  on_ax ax "set_ylim" (fun a =>
    let! s := this in
    let! top := lift (py_max s.(manager).(ab2)) in
    let! bottom := lift (py_min s.(manager).(ab2)) in
    draw (set_ylim a top bottom)) ;;;
  on_ax ax "grid" (fun a => draw (grid a)) ;;;
  on_ax ax "set_xlabel" (fun a => draw (set_xlabel a "$\rho_a$ [$\Omega$m]")) ;;;
  on_ax ax "set_ylabel" (fun a => draw (set_ylabel a "AB/2 [m]")) ;;;
  on_ax ax "legend" (fun a => draw (legend a)) ;;;
  ret ax.
End Plotting.
End VESResults.

(** * Specification vocabulary *)

(** [wp m Q s]: run from [s], the method [m] ends, returning or raising,
    in a result and a state that satisfy [Q]. *)
Definition wp {S T} (m : method S T) (Q : result T -> S -> Prop) (s : S) : Prop :=
  Q (fst (m s)) (snd (m s)).

Module MatrixSpec.
Section Spec.
Context {R : Type} `{Scalar R}.

(** The wrapped matrix maps a vector of [cols] entries to one of [rows]
    entries, and back. *)
Definition mult_sized (A : Matrix.MatrixBase R) : Prop :=
  forall x, length x = Matrix.cols A ->
    exists u, Matrix.mult A x = Ok u /\ length u = Matrix.rows A.

Definition transMult_sized (A : Matrix.MatrixBase R) : Prop :=
  forall y, length y = Matrix.rows A ->
    exists v, Matrix.transMult A y = Ok v /\ length v = Matrix.cols A.









(** A method that assigns nothing. *)
Definition stateless {S T : Type} (m : method S T) : Prop :=
  forall self, leaves m self = self.
End Spec.

(** Exact arithmetic: the entries form a commutative ring. *)
Class Exact (R : Type) `{Scalar R} : Type := {
  rsub : R -> R -> R;
  ropp : R -> R;
  Rth : ring_theory rO rI radd rmul rsub ropp (@eq R)
}.

(** The one law of the entries that holds with rounding as well:
    [x * 1.0] is [x]. *)
Class Unital (R : Type) `{Scalar R} : Prop :=
  rmul_1_r : forall x : R, rmul x rI = x.

(** The integers as exact scalars. *)
#[export] Instance Z_Scalar : Scalar Z :=
  {| rO := 0%Z; rI := 1%Z; radd := Z.add; rmul := Z.mul |}.

#[export] Instance Z_Exact : Exact Z :=
  {| rsub := Z.sub; ropp := Z.opp; Rth := InitialRing.Zth |}.

(** A stand-in for [eigh], and the 2 x 2 unit matrix as an array. *)
Definition eigh0 (A : Matrix.Cm05Matrix.ndarray Z)
  : result (list Z * Matrix.Cm05Matrix.ndarray Z) :=
  Ok (replicate (Matrix.Cm05Matrix.shape0 A) 1%Z, A).

Definition unit2 : Matrix.Cm05Matrix.ndarray Z :=
  {| Matrix.Cm05Matrix.shape0 := 2; Matrix.Cm05Matrix.shape1 := 2;
     Matrix.Cm05Matrix.data := [[1; 0]; [0; 1]]%Z |}.

(** Two native matrices to run the adapters on: the diagonal matrix of
    [d], and the unit matrix of [n] rows. *)
Definition diag {R : Type} `{Scalar R} (d : list R) : Matrix.MatrixBase R :=
  {| Matrix.rows := length d; Matrix.cols := length d;
     Matrix.mult := fun x => Matrix.vmul x d;
     Matrix.transMult := fun y => Matrix.vmul y d |}.

End MatrixSpec.

Module DataViewSpec.
Import DataView.

(** The cell of the matrix that index [i] of the input vectors maps to:
    [(ymap[yvec[i]], xmap[xvec[i]])]. *)
Definition cell_of (xmap ymap : gmap Z nat) (xvec yvec : list Z) (i : nat)
  : option (nat * nat) :=
  match xvec !! i, yvec !! i with
  | Some xi, Some yi =>
      match ymap !! yi, xmap !! xi with
      | Some r, Some c => Some (r, c)
      | _, _ => None
      end
  | _, _ => None
  end.

(** The entry of cell [(r, c)] once the indices below [k] have been
    stored: the value of the last of them that maps to the cell, zero
    when there is none. *)
Fixpoint written (cell : nat -> option (nat * nat)) (vals : list float)
    (k : nat) (r c : nat) : float :=
  match k with
  | 0 => 0%float
  | S k' =>
      if decide (cell k' = Some (r, c))
      then match vals !! k' with Some v => v | None => 0%float end
      else written cell vals k' r c
  end.

(** [A] has [nr] rows of [nc] entries. *)
Definition shaped (nr nc : nat) (A : list (list float)) : Prop :=
  length A = nr /\ Forall (fun row => length row = nc) A.

(** The state of the matrix after the indices below [k]. *)
Definition stored (cell : nat -> option (nat * nat)) (vals : list float)
    (nr nc k : nat) (A : list (list float)) : Prop :=
  shaped nr nc A /\
  forall r c, r < nr -> c < nc ->
    getitem2 A r c = Ok (written cell vals k r c).

(** [d] numbers the entries of [u]: [d[u[i]] = i]. *)
Definition enumerates (d : gmap Z nat) (u : list Z) : Prop :=
  forall k i, d !! k = Some i <-> u !! i = Some k.

(** [u] holds the distinct entries of [l] in increasing order. *)
Definition sorted_unique_of (u l : list Z) : Prop :=
  StronglySorted Z.lt u /\ forall k, k ∈ u <-> k ∈ l.

(** An int that binary64 holds exactly, as every int up to [2^53] in
    absolute value is: it stays what it is in an array of any type. *)
Definition exact64 (z : Z) : Prop := round64 z = z.


End DataViewSpec.

Module VESSpec.
Import VES.

(** [ab2/3] on an array. *)
Definition thirds (ab2 : list float) : value :=
  VVec (map (fun a => PrimFloat.div a 3) ab2).

(** The native calls a method has added to the history. *)
Definition added (before after : state) : list native :=
  drop (length before.(world)) after.(world).

(** The calls of the run phase of [invert] on the inversion [inv]. *)
Definition run_phase (inv : nat) (type lam verbose : value) : list native :=
  (if eq_str type "smooth" && is_None lam then [runChi1 inv]
   else [setLambda inv (if is_None lam then VNum 1000 else lam); run inv])
  ++ (if is_False verbose then [echoStatus inv] else []).

Definition is_RInversion (c : native) : bool :=
  match c with RInversion _ _ _ => true | _ => false end.







(** The entries [applyModelTrans] reads of the two bounds and of the
    transformations are there: [b[0]], [b[1]], [b[2]] and [trans[0]],
    [trans[1]]. *)
Definition has_three (v : value) : Prop :=
  exists a b c, getitem v 0 = Ok a /\ getitem v 1 = Ok b /\ getitem v 2 = Ok c.

Definition has_two (v : value) : Prop :=
  exists a b, getitem v 0 = Ok a /\ getitem v 1 = Ok b.

Definition transformable (m : t) : Prop :=
  has_three m.(thkBounds) /\ has_three m.(rhoBounds) /\ has_two m.(trans).

(** The forward operator is there, or can be created. *)
Definition ready (m : t) : Prop := is_Some m.(FOP) \/ transformable m.


(** A native library to run the manager against: every call returns the
    same small vector. *)
Definition answer0 (h : list native) : value := VVec [100%float; 200%float].
Definition median0 (v : value) : value := VNum 150.
Definition max0 (v : value) : value := VNum 30.

(** A block manager whose inversion does not exist yet, and the same one
    after a first [invert] has created it. *)
Definition block0 : state :=
  {| self := {| verbose := VBool false; type := VStr "block";
                ab2 := VVec [3%float; 30%float];
                mn2 := VVec [1%float; 10%float]; Z := VNum 4;
                FOP := None; INV := None; startmodel := VNone;
                thkBounds := default_thkBounds;
                rhoBounds := default_modelBounds;
                trans := default_trans; dataTrans := None;
                dataToFit := None; resDistribution := None |};
     world := [] |}.

Definition block1 : state :=
  leaves (invert answer0 median0 max0 (VVec [100%float; 200%float]) VNone
            (VNum 3) VNone
            {["lambdaFactor" := VNum 0.5]}) block0.

End VESSpec.

(** ** Vocabulary for the further properties *)
Module AdapterSpec.
Import Matrix MatrixSpec.
Section Spec.
Context {R : Type} `{Scalar R}.

(** The transposed matrix: the two products and the two dimensions
    change places. *)
Definition transpose (A : MatrixBase R) : MatrixBase R :=
  {| rows := cols A; cols := rows A;
     mult := transMult A; transMult := mult A |}.

(** Two matrices that cannot be told apart through the interface. *)
Definition same_matrix (A B : MatrixBase R) : Prop :=
  rows A = rows B /\ cols A = cols B /\
  (forall x, mult A x = mult B x) /\
  (forall y, transMult A y = transMult B y).

(** A matrix whose two products are defined on the vectors of its
    dimensions. *)
Definition sized (A : MatrixBase R) : Prop :=
  mult_sized A /\ transMult_sized A.

(** An eigen-decomposition of size [n] as [Cm05Matrix] stores it: [n]
    factors and an [n] x [n] array of eigenvectors. *)
Definition decomposed (M : Cm05Matrix.t R) : Prop :=
  let n := Cm05Matrix.size M in
  Cm05Matrix.shape0 (Cm05Matrix.EV M) = n /\
  Cm05Matrix.shape1 (Cm05Matrix.EV M) = n /\
  length (Cm05Matrix.data (Cm05Matrix.EV M)) = n /\
  Forall (fun row => length row = n) (Cm05Matrix.data (Cm05Matrix.EV M)) /\
  length (Cm05Matrix.mul M) = n.
End Spec.

(** A [Cm05Matrix] in binary64 with the eigenvectors [[1 2] [3 4]] and
    the factors [5 6]. *)
Definition cm05 : Cm05Matrix.t float :=
  {| Cm05Matrix.size := 2; Cm05Matrix.ew := [5; 6]%float;
     Cm05Matrix.EV :=
       {| Cm05Matrix.shape0 := 2; Cm05Matrix.shape1 := 2;
          Cm05Matrix.data := [[1; 2]; [3; 4]]%float |};
     Cm05Matrix.mul := [5; 6]%float;
     Cm05Matrix.A :=
       {| Cm05Matrix.shape0 := 2; Cm05Matrix.shape1 := 2;
          Cm05Matrix.data := [[1; 2]; [3; 4]]%float |} |}.
End AdapterSpec.

Module ViewerSpec.
Import DataView DataViewSpec.

(** The cell index [i] maps to holds a non-zero entry when the loop
    reaches [i]. *)
Definition occupied (cell : nat -> option (nat * nat)) (vals : list float)
    (i : nat) : bool :=
  match cell i with
  | Some (r, c) => truthy (written cell vals i r c)
  | None => false
  end.

(** The indices the loop reports, and what is printed about them. *)
Definition reported (cell : nat -> option (nat * nat)) (vals : list float)
    (nshow : nat) : list nat :=
  List.filter (occupied cell vals) (seq 0 nshow).

Definition messages (inot : list nat) (nshow : nat) : list output :=
  if (0 <? length inot)%nat
  then print_not_shown (length inot) nshow
       :: (if (length inot <? 30)%nat then [print_list inot] else [])
  else [].

(** A dictionary that numbers its keys in increasing order, with the
    numbers below its size. *)
Definition increasing (d : gmap Z nat) : Prop :=
  forall k k' i i', d !! k = Some i -> d !! k' = Some i' ->
    (i < i' <-> (k < k')%Z).

Definition onto_range (d : gmap Z nat) : Prop :=
  forall i, i < size d <-> exists k, d !! k = Some i.

(** The non-zero entries of [A] with their row and column, row by row,
    and the rectangle [patchMatrix] draws for one of them. *)
Definition nonzero_entries (A : list (list float)) : list (nat * nat * float) :=
  List.filter (fun p => truthy p.2)
    (concat (imap (fun r row => imap (fun c a => (r, c, a)) row) A)).

Definition patch_of (dx : float) (p : nat * nat * float) : Rectangle :=
  {| xy := (PrimFloat.sub (of_nat p.1.2) (PrimFloat.div dx 2%float),
            PrimFloat.sub (of_nat p.1.1) 0.5%float);
     width := dx; height := 1%float |}.

(** The calls [patchMatrix] makes on an axes [ax], given the colour
    limits. *)
Definition patch_calls (A : list (list float)) (ax : nat) (lo hi : float)
    (logScale : option bool) (label : pyobj) (dx : float)
    (kwargs : gmap string pyobj) : list mpl_call :=
  [add_collection ax (map (patch_of dx) (nonzero_entries A));
   set_edgecolor; set_linewidths 0%float]
  ++ match kwargs !! "cmap" with Some c => [set_cmap c] | None => [] end
  ++ [set_norm (if match logScale with
                   | None => PrimFloat.ltb 0%float lo
                   | Some b => b
                   end
                then LogNorm lo hi else Normalize lo hi);
      set_array (map snd (nonzero_entries A));
      set_clim lo hi; updateAxes_ ax]
  ++ match kwargs !! "colorBar" with
     | Some o => if bool_of o then [createColorbar lo hi 5 label] else []
     | None => [createColorbar lo hi 5 label]
     end.

(** The pairs [(xvec[i], yvec[i])] below [n] are pairwise distinct. *)
Definition distinct_pairs (xvec yvec : list Z) (n : nat) : Prop :=
  forall i j, i < n -> j < n ->
    xvec !! i = xvec !! j -> yvec !! i = yvec !! j -> i = j.
End ViewerSpec.

Module ManagerSpec.
Import VES VESSpec.

(** A method whose final state is always related to its initial state by
    [K], whether it returns or raises. *)
Definition frames {S T} (K : S -> S -> Prop) (m : method S T) : Prop :=
  forall s, K s (leaves m s).

(** The sounding configuration stays, and the history of native calls
    only grows. *)
Definition configured (s s' : state) : Prop :=
  s'.(self).(verbose) = s.(self).(verbose) /\
  s'.(self).(type) = s.(self).(type) /\
  s'.(self).(ab2) = s.(self).(ab2) /\
  s'.(self).(mn2) = s.(self).(mn2) /\
  s'.(self).(Z) = s.(self).(Z) /\
  exists calls, s'.(world) = (s.(world) ++ calls)%list.

(** The forward operator and the inversion stay in place, and the calls
    that are added satisfy [P]. *)
Definition in_place (P : native -> Prop) (s s' : state) : Prop :=
  s'.(self).(type) = s.(self).(type) /\
  s'.(self).(FOP) = s.(self).(FOP) /\
  s'.(self).(INV) = s.(self).(INV) /\
  exists calls, s'.(world) = (s.(world) ++ calls)%list /\ Forall P calls.

(** A call that creates a forward operator or an inversion. *)
Definition constructs (c : native) : bool :=
  match c with
  | DC1dModelling _ _ _ | DC1dRhoModelling _ _ _ | RInversion _ _ _ => true
  | _ => false
  end.


(** The four arguments of a [setParameters] call, read in turn from the
    bounds [b] and entry [k] of the transformations [tr]. *)
Definition parameters (b tr : value) (k : nat)
  : result (value * value * value * value) :=
  match getitem b 0 with
  | Raise e => Raise e
  | Ok start =>
      match getitem b 1 with
      | Raise e => Raise e
      | Ok lower =>
          match getitem b 2 with
          | Raise e => Raise e
          | Ok upper =>
              match getitem tr k with
              | Raise e => Raise e
              | Ok t => Ok (start, lower, upper, t)
              end
          end
      end
  end.

Definition setParameters_call (fop region : nat)
    (p : value * value * value * value) : native :=
  region_setParameters fop region p.1.1.1 p.1.1.2 p.1.2 p.2.

(** A smooth manager on three depths, with nothing created yet. *)
Definition smooth0 : state :=
  {| self := {| verbose := VBool false; type := VStr "smooth";
                ab2 := VVec [3%float; 30%float];
                mn2 := VVec [1%float; 10%float];
                Z := VVec [1%float; 2%float; 4%float];
                FOP := None; INV := None; startmodel := VNone;
                thkBounds := default_thkBounds;
                rhoBounds := default_modelBounds;
                trans := default_trans; dataTrans := None;
                dataToFit := None; resDistribution := None |};
     world := [] |}.


(** The start model [createINV] settles on for a block manager: the one
    passed, else the one stored, else
    [[max(ab2)/3 / Z / 2, median(data)]]. *)
Definition default_block_start (np_median np_max : value -> value)
    (m : t) (data : value) : result value :=
  match truediv (np_max m.(ab2)) (VNum 3) with
  | Ok d =>
      match truediv d m.(Z) with
      | Ok d =>
          match truediv d (VNum 2) with
          | Ok d => Ok (VList [d; np_median data])
          | Raise e => Raise e
          end
      | Raise e => Raise e
      end
  | Raise e => Raise e
  end.

Definition block_start (np_median np_max : value -> value)
    (m : t) (startmodel data : value) : result value :=
  if negb (is_None startmodel) then Ok startmodel
  else if negb (is_None m.(VES.startmodel)) then Ok m.(VES.startmodel)
  else default_block_start np_median np_max m data.
End ManagerSpec.

Module ResultsSpec.
Import VES.
(** A three-layer block manager that holds an inverted model: two
    thicknesses and three resistivities. *)
Definition inverted0 : state :=
  {| self := {| verbose := VBool false; type := VStr "block";
                ab2 := VVec [3%float; 30%float];
                mn2 := VVec [1%float; 10%float]; Z := VNum 3;
                FOP := None; INV := None; startmodel := VNone;
                thkBounds := default_thkBounds;
                rhoBounds := default_modelBounds;
                trans := default_trans; dataTrans := None;
                dataToFit := None;
                resDistribution :=
                  Some (VVec [4%float; 6%float; 100%float; 500%float;
                              20%float]) |};
     world := [] |}.
End ResultsSpec.

(** * Properties *)

(** ** Running methods *)

Create HintDb methods.
#[export] Hint Unfold
  Matrix.MultLeftMatrix.rows Matrix.MultLeftMatrix.cols
  Matrix.MultLeftMatrix.mult Matrix.MultLeftMatrix.transMult
  Matrix.MultRightMatrix.rows Matrix.MultRightMatrix.cols
  Matrix.MultRightMatrix.mult Matrix.MultRightMatrix.transMult
  Matrix.MultLeftRightMatrix.rows Matrix.MultLeftRightMatrix.cols
  Matrix.MultLeftRightMatrix.mult Matrix.MultLeftRightMatrix.transMult
  Matrix.Cm05Matrix.rows Matrix.Cm05Matrix.cols
  Matrix.Cm05Matrix.mult Matrix.Cm05Matrix.transMult : methods.

Ltac run :=
  autounfold with methods in *;
  unfold returns, leaves, bind, this, ret, lift, throw, assign in *; simpl in *.

(** ** Stepping through a method *)

Lemma wp_bind {S T U} (m : method S T) (k : T -> method S U) Q s :
  wp m (fun r s' => match r with
                    | Ok v => wp (k v) Q s'
                    | Raise e => Q (Raise e) s'
                    end) s ->
  wp (bind m k) Q s.
Proof.
  unfold wp, bind. destruct (m s) as [[v|e] s']; simpl; auto.
Qed.


Lemma wp_ret {S T} (v : T) (Q : result T -> S -> Prop) s :
  Q (Ok v) s -> wp (ret v) Q s.
Proof. auto. Qed.

Lemma wp_ret_bind {S T U} (v : T) (k : T -> method S U) Q s :
  wp (k v) Q s -> wp (bind (ret v) k) Q s.
Proof. auto. Qed.

Lemma wp_this {S U} (k : S -> method S U) Q s :
  wp (k s) Q s -> wp (bind this k) Q s.
Proof. auto. Qed.

Lemma wp_assign {S U} (f : S -> S) (k : unit -> method S U) Q s :
  wp (k tt) Q (f s) -> wp (bind (assign f) k) Q s.
Proof. auto. Qed.

Lemma wp_lift {S T U} (r : result T) (k : T -> method S U) Q s :
  match r with
  | Ok v => wp (k v) Q s
  | Raise e => Q (Raise e) s
  end ->
  wp (bind (lift r) k) Q s.
Proof. unfold wp, bind, lift. destruct r; auto. Qed.

Lemma wp_if_true {S T} (b : bool) (m1 m2 : method S T) Q s :
  b = true -> wp m1 Q s -> wp (if b then m1 else m2) Q s.
Proof. now intros ->. Qed.

Lemma wp_if_false {S T} (b : bool) (m1 m2 : method S T) Q s :
  b = false -> wp m2 Q s -> wp (if b then m1 else m2) Q s.
Proof. now intros ->. Qed.

Lemma wp_bind_if_true {S T U} (b : bool) (m1 m2 : method S T)
    (k : T -> method S U) Q s :
  b = true -> wp (bind m1 k) Q s -> wp (bind (if b then m1 else m2) k) Q s.
Proof. now intros ->. Qed.

Lemma wp_bind_if_false {S T U} (b : bool) (m1 m2 : method S T)
    (k : T -> method S U) Q s :
  b = false -> wp (bind m2 k) Q s -> wp (bind (if b then m1 else m2) k) Q s.
Proof. now intros ->. Qed.

Lemma wp_lift_end {S T} (r : result T) (Q : result T -> S -> Prop) s :
  Q r s -> wp (lift r) Q s.
Proof. auto. Qed.

Lemma wp_assign_end {S} (f : S -> S) (Q : result unit -> S -> Prop) s :
  Q (Ok tt) (f s) -> wp (assign f) Q s.
Proof. auto. Qed.

(** ** The matrix adapters *)

(** *** binary64: [x * 1.0] is [x]

    The product of a binary64 number with [1.0] is exact: the mantissa
    is shifted by 52 places and shifted back by the rounding. *)

Module Binary64.
Import SpecFloat FloatOps FloatAxioms MatrixSpec.

Lemma digits2_pos_shift (n : nat) (m : positive) :
  Zpos (digits2_pos (Nat.iter n xO m)) = (Zpos (digits2_pos m) + Z.of_nat n)%Z.
Proof.
  induction n as [|n IH]; simpl; [lia|].
  rewrite Pos2Z.inj_succ, IH. lia.
Qed.

Lemma mul_shift (n : nat) (m : positive) :
  (m * Nat.iter n xO 1)%positive = Nat.iter n xO m.
Proof.
  induction n as [|n IH]; simpl; [apply Pos.mul_1_r|].
  rewrite Pos.mul_xO_r. now rewrite IH.
Qed.

Lemma SF64mul_one (x : spec_float) :
  valid_binary x = true ->
  SF64mul x (S754_finite false 4503599627370496 (-52)) = x.
Proof.
  destruct x as [s|s| |s m e]; intros V; cbn [SF64mul SFmul].
  1,2: now destruct s.
  - reflexivity.
  - replace (xorb s false) with s by now destruct s.
    unfold valid_binary in V. cbn [SpecFloat.valid_binary] in V.
    unfold bounded in V.
    apply andb_prop in V as [C B]. unfold canonical_mantissa in C.
    apply Z.eqb_eq in C.
    change 4503599627370496%positive with (Nat.iter 52 xO 1%positive).
    rewrite mul_shift.
    assert (E1 : shr_fexp prec emax (Z.pos (Nat.iter 52 xO m)) (e + -52) loc_Exact
                 = (Build_shr_record (Zpos m) false false, e)).
    { unfold shr_fexp. cbn [Zdigits2]. rewrite digits2_pos_shift.
      replace (Z.pos (digits2_pos m) + Z.of_nat 52 + (e + -52))%Z
        with (Z.pos (digits2_pos m) + e)%Z by lia.
      rewrite C. replace (e - (e + -52))%Z with 52%Z by lia.
      cbn [shr shr_record_of_loc].
      change (iter_pos shr_1 52 _) with (Build_shr_record (Zpos m) false false).
      f_equal. lia. }
    assert (E2 : shr_fexp prec emax (Z.pos m) e loc_Exact
                 = (Build_shr_record (Zpos m) false false, e)).
    { unfold shr_fexp. cbn [Zdigits2]. rewrite C, Z.sub_diag. reflexivity. }
    unfold binary_round_aux. rewrite E1.
    cbn [shr_m loc_of_shr_record round_nearest_even]. rewrite E2.
    cbn [shr_m]. now rewrite B.
Qed.

#[export] Instance float64_Unital : Unital float.
Proof.
  intros x. apply Prim2SF_inj. cbn [rmul rI float64]. rewrite mul_spec.
  change (Prim2SF 1) with (S754_finite false 4503599627370496 (-52)).
  apply SF64mul_one, Prim2SF_valid.
Qed.
End Binary64.

Module MatrixFacts.
Import Matrix MatrixSpec Binary64.

Section Algebra.
Context {R : Type} `{HR : Scalar R}.

Lemma vmul_sized (x y : list R) :
  length x = length y -> vmul x y = Ok (hadamard x y).
Proof.
  intros E. unfold vmul. rewrite E, Nat.eqb_refl. reflexivity.
Qed.

Lemma hadamard_length (x y : list R) :
  length x = length y -> length (hadamard x y) = length x.
Proof.
  intros E. unfold hadamard. rewrite length_zip_with. lia.
Qed.


(** What the constructors check. *)
Lemma MultLeftMatrix_init_inv (A : MatrixBase R) (left : list R) M :
  MultLeftMatrix.__init__ A left = Ok M ->
  M = {| MultLeftMatrix.A := A; MultLeftMatrix.left := left |} /\
  length left = rows A.
Proof.
  unfold MultLeftMatrix.__init__.
  destruct (Nat.eqb_spec (rows A) (length left)); simpl; intros E;
    inversion E; auto.
Qed.

Lemma MultLeftRightMatrix_init_inv (A : MatrixBase R) (left right : list R) M :
  MultLeftRightMatrix.__init__ A left right = Ok M ->
  M = {| MultLeftRightMatrix.A := A; MultLeftRightMatrix.right := right;
         MultLeftRightMatrix.left := left |} /\
  length left = rows A /\ length right = cols A.
Proof.
  unfold MultLeftRightMatrix.__init__.
  destruct (Nat.eqb_spec (cols A) (length right)); simpl; [|discriminate].
  destruct (Nat.eqb_spec (rows A) (length left)); simpl; intros E;
    inversion E; auto.
Qed.

Lemma MultRightMatrix_init_inv (A : MatrixBase R) (r : option (list R)) M :
  MultRightMatrix.__init__ A r = Ok M ->
  M = {| MultRightMatrix.A := A;
         MultRightMatrix.r := match r with
                              | Some r => r
                              | None => RVector (cols A) rI
                              end |}.
Proof.
  unfold MultRightMatrix.__init__. destruct r; intros E; inversion E; auto.
Qed.

(** The [r] of a [MultRightMatrix] fits when it is the default, or is
    supplied with [A.cols()] entries. *)
Lemma default_r_length (A : MatrixBase R) (r : option (list R)) :
  (forall r', r = Some r' -> length r' = cols A) ->
  length (match r with Some r => r | None => RVector (cols A) rI end) = cols A.
Proof.
  destruct r as [r|]; intros Hr; [now apply Hr|].
  unfold RVector. apply length_replicate.
Qed.

(** *** From "defined and equal" to the two statements *)



(** With an [r] of another size, [mult] of a [MultRightMatrix] raises on
    every [x] of [cols()] entries, and there is nothing to compare. *)
Lemma MultRightMatrix_mult_misfit (A : MatrixBase R) (r x : list R) :
  length r <> cols A -> length x = cols A ->
  is_Ok (returns (MultRightMatrix.mult x)
           {| MultRightMatrix.A := A; MultRightMatrix.r := r |}) = false.
Proof.
  intros Hr Hx. run. unfold vmul.
  destruct (Nat.eqb_spec (length x) (length r)); [congruence|]. reflexivity.
Qed.

(** *** The default [r]: what holds with rounding too *)

Section Unit.
Context `{HU : !Unital R}.

Lemma hadamard_ones (x : list R) (n : nat) :
  length x <= n -> hadamard x (RVector n rI) = x.
Proof.
  unfold hadamard, RVector. revert n.
  induction x as [|x0 x IH]; intros [|n] Hn; simpl in *; try lia; auto.
  rewrite IH by lia. f_equal. apply rmul_1_r.
Qed.

(** C1: a [MultRightMatrix] built from [A] and a vector [r] of [A.cols()]
    entries returns [A.mult(x * r)] from [mult(x)], for every [x] of
    [A.cols()] entries; built without [r], it holds the all-ones vector
    of [A.cols()] entries and [mult(x)] returns [A.mult(x)]. *)
Theorem MultRightMatrix_mult_spec (A : MatrixBase R) (x : list R) :
  length x = cols A ->
  (forall r, length r = cols A ->
     exists M, MultRightMatrix.__init__ A (Some r) = Ok M /\
               vmul x r = Ok (hadamard x r) /\
               returns (MultRightMatrix.mult x) M = mult A (hadamard x r)) /\
  (exists M, MultRightMatrix.__init__ A None = Ok M /\
             MultRightMatrix.r M = RVector (cols A) rI /\
             returns (MultRightMatrix.mult x) M = mult A x).
Proof.
  intros Hx. split.
  - intros r Hr. eexists. split; [reflexivity|].
    assert (E : vmul x r = Ok (hadamard x r)) by (apply vmul_sized; congruence).
    split; [exact E|]. run. rewrite E. simpl. reflexivity.
  - eexists. split; [reflexivity|]. split; [reflexivity|]. run.
    rewrite vmul_sized by (unfold RVector; rewrite length_replicate; exact Hx).
    simpl. rewrite hadamard_ones by lia. reflexivity.
Qed.
End Unit.

(** *** Exact arithmetic: transposition and linearity *)

Section ExactArithmetic.
Context `{HE : !Exact R}.
Add Ring Rring : (@Rth R HR HE).

Lemma Exact_Unital : Unital R.
Proof. intros x. ring. Qed.



(** Transposition, adapter by adapter. *)




(** Linearity, adapter by adapter. *)







End ExactArithmetic.

(** C4: the adapters are stateless: [mult], [transMult], [rows] and
    [cols] leave the object, that is every stored field ([A], [left],
    [right], [r]; for [Cm05Matrix] [ew], [EV], [mul], [size], [A]), as it
    was, whatever the input vector and whether they return or raise. *)
Theorem adapters_are_stateless :
  (forall x : list R,
     stateless (MultLeftMatrix.mult x) /\
     stateless (MultLeftMatrix.transMult x) /\
     stateless (MultRightMatrix.mult x) /\
     stateless (MultRightMatrix.transMult x) /\
     stateless (MultLeftRightMatrix.mult x) /\
     stateless (MultLeftRightMatrix.transMult x) /\
     stateless (Cm05Matrix.mult x) /\
     stateless (Cm05Matrix.transMult x)) /\
  stateless (@MultLeftMatrix.rows R) /\
  stateless (@MultLeftMatrix.cols R) /\
  stateless (@MultRightMatrix.rows R) /\
  stateless (@MultRightMatrix.cols R) /\
  stateless (@MultLeftRightMatrix.rows R) /\
  stateless (@MultLeftRightMatrix.cols R) /\
  stateless (@Cm05Matrix.rows R) /\
  stateless (@Cm05Matrix.cols R).
Proof.
  repeat split; intros self; run; try reflexivity.
  - destruct (mult _ x); simpl; reflexivity.
  - destruct (vmul x _); simpl; reflexivity.
  - destruct (vmul x _); simpl; reflexivity.
  - destruct (transMult _ x); simpl; reflexivity.
  - destruct (vmul x _); simpl; [destruct (mult _ _)|]; simpl; reflexivity.
  - destruct (vmul x _); simpl; [destruct (transMult _ _)|]; simpl; reflexivity.
  - destruct (Cm05Matrix.dot_vm x _); simpl;
      [destruct (Cm05Matrix.np_mul _ _)|]; simpl; reflexivity.
  - destruct (Cm05Matrix.dot_vm x _); simpl;
      [destruct (Cm05Matrix.np_mul _ _)|]; simpl; reflexivity.
Qed.

(** C5: the dimension queries delegate to the wrapped matrix: [rows()]
    returns [A.rows()] and [cols()] returns [A.cols()] for the three
    composite adapters; for a [Cm05Matrix], which is only built from a
    square [A], both return the number of rows of [A]. *)
Theorem dimension_queries_delegate :
  (forall M : MultLeftMatrix.t R,
     returns MultLeftMatrix.rows M = Ok (rows (MultLeftMatrix.A M)) /\
     returns MultLeftMatrix.cols M = Ok (cols (MultLeftMatrix.A M))) /\
  (forall M : MultRightMatrix.t R,
     returns MultRightMatrix.rows M = Ok (rows (MultRightMatrix.A M)) /\
     returns MultRightMatrix.cols M = Ok (cols (MultRightMatrix.A M))) /\
  (forall M : MultLeftRightMatrix.t R,
     returns MultLeftRightMatrix.rows M = Ok (rows (MultLeftRightMatrix.A M)) /\
     returns MultLeftRightMatrix.cols M = Ok (cols (MultLeftRightMatrix.A M))) /\
  (forall eigh sqrt_inv (A : Cm05Matrix.ndarray R) (M : Cm05Matrix.t R),
     Cm05Matrix.__init__ eigh sqrt_inv A = Ok M ->
     Cm05Matrix.A M = A /\
     Cm05Matrix.shape0 A = Cm05Matrix.shape1 A /\
     returns Cm05Matrix.rows M = Ok (Cm05Matrix.shape0 A) /\
     returns Cm05Matrix.cols M = Ok (Cm05Matrix.shape0 A)).
Proof.
  repeat split; run; try reflexivity;
    unfold Cm05Matrix.__init__ in *;
    destruct (Nat.eqb_spec (Cm05Matrix.shape0 A) (Cm05Matrix.shape1 A));
    simpl in *; try discriminate;
    destruct (eigh A) as [[ew EV]|]; try discriminate;
    match goal with E : Ok _ = Ok _ |- _ => inversion E; subst; clear E end;
    simpl; auto.
Qed.
End Algebra.

#[export] Existing Instance Exact_Unital.

(** *** The adapters at work on a diagonal and on a unit matrix *)

Section Samples.
Context {R : Type} `{HR : Scalar R}.

Lemma diag_mult_sized (d : list R) : mult_sized (diag d).
Proof.
  intros x Hx. simpl in *. exists (hadamard x d).
  split; [now apply vmul_sized | now rewrite hadamard_length].
Qed.

Lemma diag_transMult_sized (d : list R) : transMult_sized (diag d).
Proof.
  intros x Hx. simpl in *. exists (hadamard x d).
  split; [now apply vmul_sized | now rewrite hadamard_length].
Qed.





Context `{HE : !Exact R}.


End Samples.

Lemma MultRightMatrix_mult_spec_witness :
  returns (MultRightMatrix.mult [1; 2]%float)
    {| MultRightMatrix.A := diag [2; 3]%float;
       MultRightMatrix.r := [4; 5]%float |}
    = Ok [8; 30]%float /\
  returns (MultRightMatrix.mult [1; 2]%float)
    {| MultRightMatrix.A := diag [2; 3]%float;
       MultRightMatrix.r := [1; 1]%float |}
    = Ok [2; 6]%float.
Proof.
  destruct (MultRightMatrix_mult_spec (diag [2; 3]%float) [1; 2]%float eq_refl)
    as [Hr Hnone].
  split.
  - destruct (Hr [4; 5]%float eq_refl) as (M & E & _ & Hm).
    injection E as <-. exact Hm.
  - destruct Hnone as (M & E & _ & Hm).
    injection E as <-. exact Hm.
Defined.





Lemma dimension_queries_delegate_witness :
  exists M, Cm05Matrix.__init__ eigh0 (fun e => e) unit2 = Ok M /\
            returns Cm05Matrix.rows M = Ok 2 /\
            returns Cm05Matrix.cols M = Ok 2 /\
            returns (Cm05Matrix.mult [3; 4]%Z) M = Ok [3; 4]%Z.
Proof.
  eexists. split; [reflexivity|].
  destruct (@dimension_queries_delegate Z) as (_ & _ & _ & H).
  destruct (H eigh0 (fun e => e) unit2 _ eq_refl) as (_ & _ & Hr & Hc).
  split; [exact Hr|]. split; [exact Hc|]. reflexivity.
Defined.

End MatrixFacts.

(** ** The data-matrix viewer *)

Module DataViewFacts.
Import DataView DataViewSpec.


(** *** patchMatrix *)

Lemma np_nonzero_cells (A : list (list float)) (p : nat * nat * float) :
  In p (concat (imap (fun r row => imap (fun c a => (r, c, a)) row) A)) ->
  getitem2 A p.1.1 p.1.2 = Ok p.2.
Proof.
  rewrite in_concat. intros (l & Hl & Hp).
  apply list_elem_of_In, elem_of_lookup_imap in Hl as (r & row & -> & Hrow).
  apply list_elem_of_In, elem_of_lookup_imap in Hp as (c & a & -> & Ha).
  simpl. unfold getitem2, getitem_list. rewrite Hrow, Ha. reflexivity.
Qed.



(** *** generateMatrix: the two dictionaries *)

(** Keys that binary64 holds exactly are stored as they are. *)
Lemma astype_exact (d : dtype) (l : list Z) :
  Forall exact64 l -> map (astype d) l = l.
Proof.
  induction 1 as [|z l Hz _ IH]; simpl; [reflexivity|].
  rewrite IH. f_equal. destruct d; simpl; auto.
Qed.

Lemma np_array_exact (l : list Z) : Forall exact64 l -> np_array l = l.
Proof. apply astype_exact. Qed.

Lemma np_hstack_exact (x y : list Z) :
  Forall exact64 x -> Forall exact64 y -> np_hstack x y = (x ++ y)%list.
Proof.
  intros Hx Hy. unfold np_hstack.
  rewrite (np_array_exact x Hx), (np_array_exact y Hy).
  apply astype_exact, Forall_app. now split.
Qed.

Lemma np_unique_NoDup (l : list Z) : NoDup (np_unique l).
Proof.
  unfold np_unique. rewrite merge_sort_Permutation. apply NoDup_remove_dups.
Qed.

Lemma np_unique_elem_of (l : list Z) (k : Z) : k ∈ np_unique l <-> k ∈ l.
Proof.
  unfold np_unique. rewrite merge_sort_Permutation. apply elem_of_remove_dups.
Qed.

Lemma StronglySorted_le_lt (l : list Z) :
  StronglySorted Z.le l -> NoDup l -> StronglySorted Z.lt l.
Proof.
  induction 1 as [|x l Hs IH Hall]; intros Hnd; [constructor|].
  apply NoDup_cons in Hnd as [Hx Hnd].
  constructor; [auto|].
  rewrite Forall_forall in *. intros y Hy.
  assert (x <> y) by (intros ->; apply Hx; now apply list_elem_of_In).
  specialize (Hall y Hy). lia.
Qed.

Lemma np_unique_sorted (l : list Z) : sorted_unique_of (np_unique l) l.
Proof.
  split; [|intros k; apply np_unique_elem_of].
  apply StronglySorted_le_lt; [|apply np_unique_NoDup].
  unfold np_unique. apply StronglySorted_merge_sort; apply _.
Qed.

Lemma dict_of_enumerate_snoc (u : list Z) (x : Z) :
  dict_of_enumerate (u ++ [x]) = <[x := length u]> (dict_of_enumerate u).
Proof.
  unfold dict_of_enumerate, enumerate.
  rewrite imap_app, foldl_app. simpl. rewrite Nat.add_0_r. reflexivity.
Qed.

Lemma dict_of_enumerate_enumerates (u : list Z) :
  NoDup u -> enumerates (dict_of_enumerate u) u.
Proof.
  induction u as [|x u IH] using rev_ind; intros Hnd k i.
  - unfold dict_of_enumerate. simpl. rewrite lookup_empty, lookup_nil.
    split; discriminate.
  - apply NoDup_app in Hnd as (Hu & Hx & _).
    rewrite dict_of_enumerate_snoc.
    destruct (decide (x = k)) as [->|Hne].
    + rewrite lookup_insert_eq. split.
      * intros [= <-]. now rewrite list_lookup_middle.
      * intros Hi. apply lookup_app_Some in Hi as [Hi|[Hlen Hi]].
        -- exfalso. apply (Hx k); [|left].
           now apply list_elem_of_lookup_2 in Hi.
        -- apply list_lookup_singleton_Some in Hi as [Hi _].
           f_equal. lia.
    + rewrite lookup_insert_ne by assumption. rewrite (IH Hu k i). split.
      * intros Hi. now apply lookup_app_l_Some.
      * intros Hi. apply lookup_app_Some in Hi as [Hi|[Hlen Hi]]; [assumption|].
        apply list_lookup_singleton_Some in Hi as [_ Hi]. congruence.
Qed.

Lemma dict_of_enumerate_size (u : list Z) :
  NoDup u -> size (dict_of_enumerate u) = length u.
Proof.
  induction u as [|x u IH] using rev_ind; intros Hnd.
  - reflexivity.
  - apply NoDup_app in Hnd as (Hu & Hx & _).
    rewrite dict_of_enumerate_snoc, length_app, map_size_insert_None.
    + rewrite IH by assumption. simpl. lia.
    + destruct (dict_of_enumerate u !! x) as [i|] eqn:E; [|reflexivity].
      apply (dict_of_enumerate_enumerates u Hu) in E.
      exfalso. apply (Hx x); [|left].
      now apply list_elem_of_lookup_2 in E.
Qed.

(** Every entry of [l] has a number below the size of the dictionary. *)
Lemma dict_of_unique_covers (l l' : list Z) (i : nat) (x : Z) :
  l !! i = Some x -> (forall k, k ∈ l -> k ∈ l') ->
  exists c, dict_of_enumerate (np_unique l') !! x = Some c /\
            c < size (dict_of_enumerate (np_unique l')).
Proof.
  intros Hi Hsub.
  assert (Hx : x ∈ np_unique l').
  { apply np_unique_elem_of, Hsub. now apply list_elem_of_lookup_2 in Hi. }
  apply list_elem_of_lookup_1 in Hx as [c Hc].
  exists c. split.
  - apply (dict_of_enumerate_enumerates _ (np_unique_NoDup l')). exact Hc.
  - rewrite dict_of_enumerate_size by apply np_unique_NoDup.
    now apply lookup_lt_Some in Hc.
Qed.

(** *** generateMatrix: the loop *)

Lemma for_app {S T} (l1 l2 : list T) (body : T -> method S unit) (s : S) :
  for_ (l1 ++ l2) body s = (for_ l1 body ;;; for_ l2 body) s.
Proof.
  revert s. induction l1 as [|i l1 IH]; intros s; simpl.
  - reflexivity.
  - unfold bind. destruct (body i s) as [[[]|e] s1]; [|reflexivity].
    rewrite IH. reflexivity.
Qed.

Lemma np_zeros_shaped (nr nc : nat) : shaped nr nc (np_zeros nr nc).
Proof.
  unfold shaped, np_zeros. rewrite length_replicate. split; [reflexivity|].
  apply Forall_replicate. apply length_replicate.
Qed.

Lemma np_zeros_getitem2 (nr nc r c : nat) :
  r < nr -> c < nc -> getitem2 (np_zeros nr nc) r c = Ok 0%float.
Proof.
  intros Hr Hc. unfold getitem2, getitem_list, np_zeros.
  rewrite lookup_replicate_2 by assumption.
  rewrite lookup_replicate_2 by assumption. reflexivity.
Qed.

Lemma shaped_lookup (nr nc : nat) (A : list (list float)) (r : nat) :
  shaped nr nc A -> r < nr -> exists row, A !! r = Some row /\ length row = nc.
Proof.
  intros [Hlen Hrows] Hr.
  destruct (lookup_lt_is_Some_2 A r) as [row Hrow]; [lia|].
  exists row. split; [assumption|].
  exact (Forall_lookup_1 _ _ _ _ Hrows Hrow).
Qed.

Lemma setitem2_spec (nr nc : nat) (A : list (list float)) (r c : nat) (v : float) :
  shaped nr nc A -> r < nr -> c < nc ->
  exists A', setitem2 A r c v = Ok A' /\ shaped nr nc A' /\
    forall r' c', getitem2 A' r' c' =
      if decide ((r', c') = (r, c)) then Ok v else getitem2 A r' c'.
Proof.
  intros HA Hr Hc.
  destruct (shaped_lookup nr nc A r HA Hr) as (row & Hrow & Hlen).
  destruct HA as [HlenA Hrows].
  unfold setitem2. rewrite Hrow.
  destruct (Nat.ltb_spec c (length row)); [|lia].
  eexists. split; [reflexivity|]. split.
  - split; [now rewrite length_insert|].
    apply Forall_insert; [assumption|]. now rewrite length_insert.
  - intros r' c'. unfold getitem2, getitem_list.
    destruct (decide (r' = r)) as [->|Hne].
    + rewrite list_lookup_insert_eq by lia.
      destruct (decide (c' = c)) as [->|Hnc].
      * rewrite list_lookup_insert_eq by lia.
        rewrite decide_True by reflexivity. reflexivity.
      * rewrite list_lookup_insert_ne by congruence.
        rewrite decide_False by congruence. rewrite Hrow. reflexivity.
    + rewrite list_lookup_insert_ne by congruence.
      rewrite decide_False by congruence. reflexivity.
Qed.

Section Loop.
Variables (xvec yvec : list Z) (vals : list float) (xmap ymap : gmap Z nat).
Variables nr nc : nat.
Hypothesis Hx : forall i x, xvec !! i = Some x ->
  exists c, xmap !! x = Some c /\ c < nc.
Hypothesis Hy : forall i y, yvec !! i = Some y ->
  exists r, ymap !! y = Some r /\ r < nr.

Let cell := cell_of xmap ymap xvec yvec.
Let nshow := nshow_of xvec yvec vals.

Lemma generateMatrix_loop_step (k : nat) (f : frame) :
  k < nshow -> stored cell vals nr nc k f.(A) ->
  exists f', generateMatrix_loop xvec yvec vals xmap ymap k f = (Ok tt, f') /\
             stored cell vals nr nc (S k) f'.(A) /\ stdout f' = stdout f.
Proof.
  intros Hk [Hshape Hcells]. unfold nshow, nshow_of in Hk.
  destruct (lookup_lt_is_Some_2 xvec k) as [xi Hxi]; [lia|].
  destruct (lookup_lt_is_Some_2 yvec k) as [yi Hyi]; [lia|].
  destruct (lookup_lt_is_Some_2 vals k) as [v Hv]; [lia|].
  destruct (Hx k xi Hxi) as (c & Hc & Hcn).
  destruct (Hy k yi Hyi) as (r & Hr & Hrn).
  destruct (setitem2_spec nr nc f.(A) r c v Hshape Hrn Hcn)
    as (A' & Eset & Hshape' & Hget).
  assert (Ecell : cell k = Some (r, c)).
  { unfold cell, cell_of. now rewrite Hxi, Hyi, Hr, Hc. }
  exists (set_A A' (if truthy (written cell vals k r c)
                    then append_inot k f else f)).
  unfold generateMatrix_loop, getitem_list, getitem_dict. run.
  rewrite Hxi, Hyi. simpl. rewrite Hr, Hc. simpl.
  rewrite (Hcells r c Hrn Hcn). simpl.
  split; [|split].
  - destruct (truthy _); simpl; rewrite Hv; simpl; rewrite Eset; reflexivity.
  - simpl. split; [assumption|]. intros r' c' Hr' Hc'.
    rewrite Hget. destruct (decide ((r', c') = (r, c))) as [[= -> ->]|Hne].
    + simpl. rewrite decide_True by assumption. now rewrite Hv.
    + simpl. rewrite decide_False by congruence. auto.
  - destruct (truthy _); reflexivity.
Qed.

Lemma generateMatrix_loop_runs (k : nat) (f : frame) :
  k <= nshow -> stored cell vals nr nc 0 f.(A) ->
  exists f', for_ (seq 0 k) (generateMatrix_loop xvec yvec vals xmap ymap) f
               = (Ok tt, f') /\
             stored cell vals nr nc k f'.(A) /\ stdout f' = stdout f.
Proof.
  intros Hk H0. induction k as [|k IH].
  - exists f. simpl. auto.
  - destruct IH as (f1 & E1 & H1 & Hout1); [lia|].
    destruct (generateMatrix_loop_step k f1) as (f2 & E2 & H2 & Hout2);
      [lia | assumption |].
    exists f2. rewrite seq_S, for_app. unfold bind at 1. rewrite E1. simpl.
    unfold bind. rewrite E2. repeat split; try apply H2. congruence.
Qed.
End Loop.

(** What [written] amounts to. *)
Lemma written_last cell vals k r c j v :
  j < k -> cell j = Some (r, c) ->
  (forall j', j < j' < k -> cell j' <> Some (r, c)) ->
  vals !! j = Some v ->
  written cell vals k r c = v.
Proof.
  intros Hj Hcell Hlast Hv. induction k as [|k IH]; [lia|]. simpl.
  destruct (decide (j = k)) as [->|Hne].
  - rewrite decide_True by assumption. now rewrite Hv.
  - rewrite decide_False by (apply Hlast; lia).
    apply IH; [lia|]. intros j' Hj'. apply Hlast. lia.
Qed.

Lemma written_none cell vals k r c :
  (forall i, i < k -> cell i <> Some (r, c)) ->
  written cell vals k r c = 0%float.
Proof.
  intros Hno. induction k as [|k IH]; [reflexivity|]. simpl.
  rewrite decide_False by (apply Hno; lia).
  apply IH. intros i Hi. apply Hno. lia.
Qed.

(** The dictionaries [generateMatrix] builds. *)
Lemma generateMatrix_maps (xvec yvec : list Z) (full : bool) :
  let xmap := if full then dict_of_enumerate (np_unique (xvec ++ yvec))
              else dict_of_enumerate (np_unique xvec) in
  let ymap := if full then xmap else dict_of_enumerate (np_unique yvec) in
  (forall i x, xvec !! i = Some x ->
     exists c, xmap !! x = Some c /\ c < size xmap) /\
  (forall i y, yvec !! i = Some y ->
     exists r, ymap !! y = Some r /\ r < size ymap) /\
  (if full
   then xmap = ymap /\
        exists u, sorted_unique_of u (xvec ++ yvec) /\ enumerates xmap u
   else exists ux uy,
        sorted_unique_of ux xvec /\ enumerates xmap ux /\
        sorted_unique_of uy yvec /\ enumerates ymap uy).
Proof.
  destruct full; simpl.
  - split; [|split; [|split]].
    + intros i x Hi. apply (dict_of_unique_covers xvec _ i x Hi).
      intros k Hk. apply elem_of_app. now left.
    + intros i y Hi. apply (dict_of_unique_covers yvec _ i y Hi).
      intros k Hk. apply elem_of_app. now right.
    + reflexivity.
    + exists (np_unique (xvec ++ yvec)).
      split; [apply np_unique_sorted|].
      apply dict_of_enumerate_enumerates, np_unique_NoDup.
  - split; [|split].
    + intros i x Hi. now apply (dict_of_unique_covers xvec _ i x Hi).
    + intros i y Hi. now apply (dict_of_unique_covers yvec _ i y Hi).
    + exists (np_unique xvec), (np_unique yvec).
      repeat split; try apply np_unique_sorted;
        apply dict_of_enumerate_enumerates, np_unique_NoDup.
Qed.

(** The call returns the matrix the loop has stored. *)
Lemma generateMatrix_runs (xvec yvec : list Z) (vals : list float)
    (full : bool) (f : frame) :
  Forall exact64 xvec -> Forall exact64 yvec ->
  exists A xmap ymap,
    returns (generateMatrix xvec yvec vals full) f = Ok (A, xmap, ymap) /\
    xmap = (if full then dict_of_enumerate (np_unique (xvec ++ yvec))
            else dict_of_enumerate (np_unique xvec)) /\
    ymap = (if full then xmap else dict_of_enumerate (np_unique yvec)) /\
    stored (cell_of xmap ymap xvec yvec) vals (size ymap) (size xmap)
      (nshow_of xvec yvec vals) A.
Proof.
  intros Ex Ey.
  destruct (generateMatrix_maps xvec yvec full) as (Hx & Hy & _).
  unfold generateMatrix.
  rewrite (np_hstack_exact xvec yvec Ex Ey), (np_array_exact xvec Ex),
    (np_array_exact yvec Ey).
  set (xmap := if full then dict_of_enumerate (np_unique (xvec ++ yvec))
               else dict_of_enumerate (np_unique xvec)) in *.
  set (ymap := if full then xmap else dict_of_enumerate (np_unique yvec)) in *.
  destruct (generateMatrix_loop_runs xvec yvec vals xmap ymap
              (size ymap) (size xmap) Hx Hy (nshow_of xvec yvec vals)
              (set_inot [] (set_A (np_zeros (size ymap) (size xmap)) f)))
    as (f' & Eloop & Hstored & _); [lia | |].
  { split; [apply np_zeros_shaped|]. intros r c Hr Hc.
    now apply np_zeros_getitem2. }
  exists (A f'), xmap, ymap. run. rewrite Eloop. simpl.
  split; [|auto].
  destruct (0 <? length (inot f'))%nat; simpl; [|reflexivity].
  destruct (length (inot f') <? 30)%nat; reflexivity.
Qed.





(** A small run: the cell of (x, y) = (3, 10) is written twice. *)
Example generateMatrix_example :
  match returns (generateMatrix [3; 1; 3; 2]%Z [10; 10; 10; 20]%Z
                   [1.5%float; 2.5%float; 3.5%float; 4.5%float] false) fresh with
  | Ok (A, _, _) => Some A
  | Raise _ => None
  end
  = Some [[2.5%float; 0%float; 3.5%float]; [0%float; 4.5%float; 0%float]].
Proof. reflexivity. Qed.


(** [patchMatrix] on a 1 x 2 matrix: without an axes it raises and draws
    nothing; on an axes it adds the patches, and never opens a figure. *)
Example patchMatrix_without_axes :
  let call := patchMatrix (fun _ => Ok 1%float) (fun _ => Ok 2%float)
                [[1%float; 0%float]] None None PyNone None None None PyNone
                1%float ∅ in
  returns call blank
    = Raise (AttributeError "'NoneType' object has no attribute 'add_collection'")
  /\ mpl (leaves call blank) = [].
Proof. split; reflexivity. Qed.

Example patchMatrix_on_axes :
  let call := patchMatrix (fun _ => Ok 1%float) (fun _ => Ok 2%float)
                [[1%float; 0%float]] None None (PyAxes 7) None None None PyNone
                1%float ∅ in
  returns call blank = Ok (PyAxes 7, Some 7) /\
  mpl (leaves call blank) =
    [add_collection 7 [{| xy := ((-0.5)%float, (-0.5)%float);
                          width := 1%float; height := 1%float |}];
     set_edgecolor; set_linewidths 0%float;
     set_norm (LogNorm 1%float 2%float); set_array [1%float];
     set_clim 1%float 2%float; updateAxes_ 7;
     createColorbar 1%float 2%float 5 PyNone].
Proof. split; reflexivity. Qed.

End DataViewFacts.

(** ** The VES manager *)

Module VESFacts.
Import VES VESSpec.

#[export] Hint Unfold new extern on_FOP on_INV setParameters log set_FOP
  set_INV set_startmodel set_modelTrans set_dataTrans set_dataToFit
  set_resDistribution : methods.






(** *** Tame methods compose *)









Section Native.
Variable answer : list native -> value.
Variables np_median np_max : value -> value.

(** *** The native calls, stepped and tamed *)

Lemma wp_new {U} (c : native) (k : nat -> method state U) Q s :
  wp (k (length s.(world))) Q (log c s) -> wp (bind (new c) k) Q s.
Proof. auto. Qed.

Lemma wp_extern {U} (c : native) (k : value -> method state U) Q s :
  wp (k (answer (s.(world) ++ [c]))) Q (log c s) ->
  wp (bind (extern answer c) k) Q s.
Proof. auto. Qed.

Lemma wp_on_INV {T U} name (m : nat -> method state T) (k : T -> method state U)
    Q s inv :
  s.(self).(INV) = Some inv ->
  wp (bind (m inv) k) Q s -> wp (bind (on_INV name m) k) Q s.
Proof.
  intros HINV. unfold wp, on_INV, bind, this. simpl. now rewrite HINV.
Qed.

Lemma wp_on_FOP {T U} name (m : nat -> method state T) (k : T -> method state U)
    Q s fop :
  s.(self).(FOP) = Some fop ->
  wp (bind (m fop) k) Q s -> wp (bind (on_FOP name m) k) Q s.
Proof.
  intros HFOP. unfold wp, on_FOP, bind, this. simpl. now rewrite HFOP.
Qed.





(** C6: the default of the potential-electrode distances: built with
    [mn2=None], a [VESManager] stores [mn2 = ab2/3], which for an array
    [ab2] is the elementwise quotient, and [simulate] called with
    [mn2=None] hands the same [ab2/3] to the forward operator it creates;
    an [mn2] that is given is used as it is.  Where [ab2/3] is not
    defined (a list, [None]) the constructor raises its error. *)
Theorem mn2_defaults_to_ab2_thirds (ab2 : value) :
  (forall v, ab2 = VVec v -> truediv ab2 (VNum 3) = Ok (thirds v)) /\
  (forall z Type_ verbose w,
     match truediv ab2 (VNum 3) with
     | Ok q =>
         exists m, returns (__init__ answer ab2 z VNone Type_ verbose) w = Ok m /\
                   m.(VES.ab2) = ab2 /\ m.(VES.mn2) = q
     | Raise e =>
         returns (__init__ answer ab2 z VNone Type_ verbose) w = Raise e
     end) /\
  (forall z mn2 Type_ verbose w, is_None mn2 = false ->
     exists m, returns (__init__ answer ab2 z mn2 Type_ verbose) w = Ok m /\
               m.(VES.ab2) = ab2 /\ m.(VES.mn2) = mn2) /\
  (forall synmodel thk res n mn2 errPerc s q,
     getitem synmodel 0 = Ok thk -> getitem synmodel 1 = Ok res ->
     len res = Ok n ->
     (if is_None mn2 then truediv ab2 (VNum 3) else Ok mn2) = Ok q ->
     exists rest,
       added s (leaves (simulate answer synmodel ab2 mn2 errPerc) s)
       = DC1dModelling (VNum (of_nat n)) ab2 q :: rest).
Proof.
  split; [|split; [|split]].
  - intros v ->. reflexivity.
  - intros. unfold __init__. cbn [is_None]. run.
    destruct (truediv ab2 (VNum 3)); run; eauto.
  - intros z mn2 Type_ verbose w Hmn2. unfold __init__. rewrite Hmn2.
    eexists. run. auto.
  - intros synmodel thk res n mn2 errPerc s q Hthk Hres Hn Hq.
    unfold simulate, added. run. rewrite Hthk, Hres. simpl.
    assert (Emn2 : (if is_None mn2 then lift (truediv ab2 (VNum 3))
                    else ret mn2) s = (Ok q, s))
      by (destruct (is_None mn2); [unfold lift; now rewrite Hq
                                  | now injection Hq as <-]).
    run. rewrite Emn2, Hn. simpl.
    set (c := DC1dModelling _ _ _).
    match goal with
    | |- exists rest, drop _ (snd ?t) .(world) = _ =>
        assert (Hw : exists rest,
                   (snd t).(world) = ((world s ++ [c]) ++ rest)%list)
    end.
    { repeat match goal with
             | |- context [match ?x with Ok _ => _ | Raise _ => _ end] =>
                 destruct x; simpl
             end;
        first [ now exists [] ; rewrite app_nil_r
              | eexists; rewrite <- !app_assoc; reflexivity ]. }
    destruct Hw as [rest ->]. exists rest.
    rewrite <- app_assoc. rewrite drop_app_length. reflexivity.
Qed.

(** The run phase of [invert] on an existing inversion. *)
Lemma invert_on_existing (s : state) (inv : nat)
    (data startmodel relErrorP lam : value) (kwargs : gmap string value) :
  s.(self).(INV) = Some inv ->
  exists s',
    invert answer np_median np_max data startmodel relErrorP lam kwargs s
      = (Ok (answer (s.(world) ++
               (if eq_str s.(self).(type) "smooth" && is_None lam
                then [runChi1 inv]
                else [setLambda inv (if is_None lam then VNum 1000 else lam);
                      run inv]))%list), s') /\
    s'.(world) = (s.(world) ++
                  run_phase inv s.(self).(type) lam s.(self).(verbose))%list /\
    s'.(self).(INV) = Some inv /\
    s'.(self).(FOP) = s.(self).(FOP) /\
    s'.(self).(VES.startmodel) = s.(self).(VES.startmodel) /\
    s'.(self).(dataToFit) = Some data.
Proof.
  intros HINV. destruct s as [[vb ty ab mn z fop inv' sm tb rb tr dt df rd] w].
  simpl in HINV. subst inv'. unfold invert, run_phase. run.
  destruct (eq_str ty "smooth" && is_None lam); run;
    destruct (is_False vb); run;
    rewrite <- ?app_assoc; simpl;
    eexists; (split; [reflexivity|]); simpl;
    rewrite <- ?app_assoc; auto.
Qed.

(** C7: [invert] builds the inversion (through [createINV]) only when
    [self.INV] is [None].  When [self.INV] is set, the call returns, the
    same inversion object stays in place, no [RInversion] is created,
    the only calls made on it are those of the run phase ([runChi1], or
    [setLambda] and [run], then [echoStatus] unless verbose), and the
    arguments [startmodel], [relErrorP] and the keyword arguments have
    no effect at all. *)
Theorem invert_reuses_INV (s : state) (inv : nat) (data lam : value) :
  s.(self).(INV) = Some inv ->
  forall startmodel relErrorP kwargs,
    let call := invert answer np_median np_max data startmodel relErrorP lam
                  kwargs in
    (forall startmodel' relErrorP' kwargs',
       call s = invert answer np_median np_max data startmodel' relErrorP' lam
                  kwargs' s) /\
    is_Ok (returns call s) = true /\
    (leaves call s).(self).(INV) = Some inv /\
    added s (leaves call s) = run_phase inv s.(self).(type) lam s.(self).(verbose) /\
    List.filter is_RInversion (added s (leaves call s)) = [].
Proof.
  intros HINV startmodel relErrorP kwargs call.
  destruct (invert_on_existing s inv data startmodel relErrorP lam kwargs HINV)
    as (s' & E & Hw & HI & _).
  assert (Hadded : added s (leaves call s)
                   = run_phase inv s.(self).(type) lam s.(self).(verbose)).
  { unfold added, leaves, call. rewrite E. simpl. rewrite Hw.
    apply drop_app_length. }
  split; [|split; [|split; [|split]]].
  - intros startmodel' relErrorP' kwargs'. unfold call. rewrite E.
    destruct (invert_on_existing s inv data startmodel' relErrorP' lam kwargs'
                HINV) as (s2 & E2 & Hw2 & HI2 & HF2 & HS2 & HD2).
    rewrite E2. f_equal.
    destruct (invert_on_existing s inv data startmodel relErrorP lam kwargs HINV)
      as (s1 & E1 & _).
    clear - E E1 E2 HINV.
    revert E E2. unfold invert.
    destruct s as [[vb ty ab mn z fop inv' sm tb rb tr dt df rd] w].
    simpl in HINV. subst inv'. run. congruence.
  - unfold returns, call. rewrite E. reflexivity.
  - unfold leaves, call. rewrite E. exact HI.
  - exact Hadded.
  - rewrite Hadded. unfold run_phase.
    destruct (eq_str _ _ && is_None lam), (is_False _); reflexivity.
Qed.

Lemma eq_str_block (ty : value) :
  eq_str ty "block" = true -> ty = VStr "block".
Proof.
  destruct ty; simpl; try discriminate. intros H.
  apply String.eqb_eq in H. now subst.
Qed.

(** Reading the four arguments and calling [setParameters]. *)
Lemma wp_setParameters {U} (fop r : nat) (b : t -> value) (k : nat)
    (a0 a1 a2 tr : value) (K : value -> method state U) Q s :
  getitem (b s.(self)) 0 = Ok a0 -> getitem (b s.(self)) 1 = Ok a1 ->
  getitem (b s.(self)) 2 = Ok a2 -> getitem s.(self).(trans) k = Ok tr ->
  wp (K (answer (s.(world) ++ [region_setParameters fop r a0 a1 a2 tr])))
    Q (log (region_setParameters fop r a0 a1 a2 tr) s) ->
  wp (bind (setParameters answer fop r b k) K) Q s.
Proof.
  intros E0 E1 E2 Et. unfold wp, setParameters, bind, this, lift. simpl.
  rewrite E0, E1, E2, Et. auto.
Qed.















End Native.

(** *** The manager at work against the sample library *)

Example block1_world :
  block1.(world) =
    [DC1dModelling (VNum 4) (VVec [3%float; 30%float]) (VVec [1%float; 10%float]);
     createMesh1DBlock (VNum 4); setMesh 0 1;
     region_setParameters 0 0 (VNum 10) (VNum 0.1) (VNum 30) (VStr "log");
     region_setParameters 0 1 (VNum 10) (VNum 1) (VNum 10000) (VStr "log");
     RInversion (VVec [100%float; 200%float]) (Some 0) false; RTransLog;
     setTransData 5 6; print (VNum 0.5);
     setMarquardtScheme 5 (VNum 0.8); setRobustData 5 (VBool false);
     setRelativeError 5 (VNum (3 / 100));
     region_setStartValue 0 0 (VNum (30 / 3 / 4 / 2));
     region_setStartValue 0 1 (VNum 150);
     setLambda 5 (VNum 1000); run 5; echoStatus 5].
Proof. reflexivity. Qed.

Lemma default_transformable (m : t) :
  m.(thkBounds) = default_thkBounds -> m.(rhoBounds) = default_modelBounds ->
  m.(trans) = default_trans -> transformable m.
Proof.
  intros Et Er Ek. unfold transformable. rewrite Et, Er, Ek.
  split; [|split]; repeat eexists.
Qed.

Lemma block0_ready : ready block0.(self).
Proof. right. now apply default_transformable. Qed.


Lemma mn2_defaults_to_ab2_thirds_witness :
  (exists m,
     returns (__init__ answer0 (VVec [3%float; 30%float]) (VNum 4) VNone
                (VStr "block") (VBool false)) [] = Ok m /\
     m.(mn2) = VVec [1%float; 10%float]) /\
  (exists rest,
     added block0
       (leaves (simulate answer0
                  (VList [VList [VNum 4; VNum 6];
                          VList [VNum 100; VNum 500; VNum 20]])
                  (VVec [3%float; 30%float]) VNone (VNum 3)) block0)
     = DC1dModelling (VNum 3) (VVec [3%float; 30%float])
         (VVec [1%float; 10%float]) :: rest).
Proof.
  destruct (mn2_defaults_to_ab2_thirds answer0 (VVec [3%float; 30%float]))
    as (_ & Hinit & _ & Hsim).
  split.
  - destruct (Hinit (VNum 4) (VStr "block") (VBool false) [])
      as (m & E & _ & Hm).
    exists m. split; [exact E | exact Hm].
  - exact (Hsim (VList [VList [VNum 4; VNum 6];
                         VList [VNum 100; VNum 500; VNum 20]])
             (VList [VNum 4; VNum 6]) (VList [VNum 100; VNum 500; VNum 20])
             3 VNone (VNum 3) block0 (VVec [1%float; 10%float])
             eq_refl eq_refl eq_refl eq_refl).
Defined.

Lemma invert_reuses_INV_witness :
  block1.(self).(INV) = Some 5 /\
  added block1
    (leaves (invert answer0 median0 max0 (VVec [1%float]) (VVec [7%float])
               (VNum 50) VNone {["lambdaFactor" := VNum 0.3]}) block1)
  = [setLambda 5 (VNum 1000); run 5; echoStatus 5].
Proof.
  split; [reflexivity|].
  destruct (invert_reuses_INV answer0 median0 max0 block1 5 (VVec [1%float])
              VNone eq_refl (VVec [7%float]) (VNum 50)
              {["lambdaFactor" := VNum 0.3]})
    as (_ & _ & _ & Hadded & _).
  exact Hadded.
Defined.


End VESFacts.

(** ** More on the matrix adapters *)
Module AdapterFacts.
Import Matrix MatrixSpec Binary64 MatrixFacts AsMatrix AdapterSpec.
Section Algebra.
Context {R : Type} `{HR : Scalar R}.

(** X1: a [MultLeftRightMatrix] is the composition of the two one-sided
    adapters, in either order: whenever [MultLeftRightMatrix(A, left,
    right)] is constructed, so are
    [MultLeftMatrix(MultRightMatrix(A, right), left)] and
    [MultRightMatrix(MultLeftMatrix(A, left), right)], and the three have
    the same [rows()] and [cols()] and return the same from [mult(x)]
    and from [transMult(x)] for every [x], errors included. *)
Theorem two_sided_is_composition (A : MatrixBase R) (left right : list R) M :
  MultLeftRightMatrix.__init__ A left right = Ok M ->
  exists MR ML ML' MR',
    MultRightMatrix.__init__ A (Some right) = Ok MR /\
    MultLeftMatrix.__init__ (MultRightMatrix_ MR) left = Ok ML /\
    same_matrix (MultLeftRightMatrix_ M) (MultLeftMatrix_ ML) /\
    MultLeftMatrix.__init__ A left = Ok ML' /\
    MultRightMatrix.__init__ (MultLeftMatrix_ ML') (Some right) = Ok MR' /\
    same_matrix (MultLeftRightMatrix_ M) (MultRightMatrix_ MR').
Proof.
  intros E. apply MultLeftRightMatrix_init_inv in E as (-> & Hl & Hr).
  exists {| MultRightMatrix.A := A; MultRightMatrix.r := right |}.
  exists {| MultLeftMatrix.A :=
              MultRightMatrix_ {| MultRightMatrix.A := A; MultRightMatrix.r := right |};
            MultLeftMatrix.left := left |}.
  exists {| MultLeftMatrix.A := A; MultLeftMatrix.left := left |}.
  exists {| MultRightMatrix.A :=
              MultLeftMatrix_ {| MultLeftMatrix.A := A; MultLeftMatrix.left := left |};
            MultRightMatrix.r := right |}.
  assert (Einit : forall B : MatrixBase R, rows B = rows A ->
            MultLeftMatrix.__init__ B left
            = Ok {| MultLeftMatrix.A := B; MultLeftMatrix.left := left |}).
  { intros B EB. unfold MultLeftMatrix.__init__.
    rewrite EB, <- Hl, Nat.eqb_refl. reflexivity. }
  split; [reflexivity|]. split; [now apply Einit|].
  split; [|split; [now apply Einit|split; [reflexivity|]]].
  - repeat split; intros x; simpl; do 3 run.
    + destruct (vmul x right); simpl; [|reflexivity].
      destruct (mult A _); reflexivity.
    + destruct (vmul x left); simpl; [|reflexivity].
      destruct (transMult A _); reflexivity.
  - repeat split; intros x; simpl; do 3 run.
    + destruct (vmul x right); simpl; [|reflexivity].
      destruct (mult A _); reflexivity.
    + destruct (vmul x left); simpl; [|reflexivity].
      destruct (transMult A _); reflexivity.
Qed.

(** X2: the one-sided adapters are each other's transposes: with [mult]
    and [transMult] (and [rows] and [cols]) exchanged,
    [MultLeftMatrix(A, v)] is [MultRightMatrix(At, v)] on the transposed
    matrix [At], and [MultRightMatrix(A, v)] is [MultLeftMatrix(At, v)];
    this holds for every vector, errors included. *)
Theorem one_sided_adapters_are_transposes :
  (forall M : MultLeftMatrix.t R,
     same_matrix (transpose (MultLeftMatrix_ M))
       (MultRightMatrix_
          {| MultRightMatrix.A := transpose (MultLeftMatrix.A M);
             MultRightMatrix.r := MultLeftMatrix.left M |})) /\
  (forall M : MultRightMatrix.t R,
     same_matrix (transpose (MultRightMatrix_ M))
       (MultLeftMatrix_
          {| MultLeftMatrix.A := transpose (MultRightMatrix.A M);
             MultLeftMatrix.left := MultRightMatrix.r M |})).
Proof.
  split; intros [A v]; repeat split; intros x; simpl; run;
    solve [ destruct (vmul x v); reflexivity
          | destruct (mult A x); reflexivity
          | destruct (transMult A x); reflexivity ].
Qed.

Section Unit.
Context `{HU : !Unital R}.

(** X4: a [MultRightMatrix] built without [r] is [A] itself: it has the
    dimensions of [A], [mult(x)] returns [A.mult(x)] for every [x] of
    [A.cols()] entries, and [transMult(y)] returns [A.transMult(y)] for
    every [y], provided [A.transMult] returns vectors of [A.cols()]
    entries. *)
Theorem default_MultRightMatrix_is_A (A : MatrixBase R) M :
  MultRightMatrix.__init__ A None = Ok M ->
  (forall y v, transMult A y = Ok v -> length v = cols A) ->
  rows (MultRightMatrix_ M) = rows A /\
  cols (MultRightMatrix_ M) = cols A /\
  (forall x, length x = cols A -> mult (MultRightMatrix_ M) x = mult A x) /\
  (forall y, transMult (MultRightMatrix_ M) y = transMult A y).
Proof.
  intros E Ht. injection E as <-. repeat split; simpl; run.
  - intros x Hx.
    rewrite vmul_sized by (unfold RVector; now rewrite length_replicate).
    simpl. rewrite hadamard_ones by lia. reflexivity.
  - intros y. destruct (transMult A y) as [v|e] eqn:Ev; simpl; [|reflexivity].
    pose proof (Ht y v Ev) as Lv.
    rewrite vmul_sized by (unfold RVector; now rewrite length_replicate).
    rewrite hadamard_ones by lia. reflexivity.
Qed.
End Unit.

(** X5: the constructor of [MultRightMatrix] does not check [r]: with an
    [r] whose size is not [A.cols()] the object is built all the same,
    and then [mult(x)] raises for every [x] of [A.cols()] entries, and
    [transMult(y)] raises wherever [A.transMult(y)] returns a vector of
    [A.cols()] entries: the elementwise product with [r] is not
    defined. *)
Theorem MultRightMatrix_accepts_any_r (A : MatrixBase R) (r : list R) :
  length r <> cols A ->
  exists M, MultRightMatrix.__init__ A (Some r) = Ok M /\
    (forall x, length x = cols A ->
       is_Ok (returns (MultRightMatrix.mult x) M) = false) /\
    (forall y v, transMult A y = Ok v -> length v = cols A ->
       is_Ok (returns (MultRightMatrix.transMult y) M) = false).
Proof.
  intros Hr. eexists. split; [reflexivity|]. split.
  - intros x Hx. now apply MultRightMatrix_mult_misfit.
  - intros y v Ev Lv. run. rewrite Ev. simpl. unfold vmul.
    destruct (Nat.eqb_spec (length v) (length r)); [congruence|reflexivity].
Qed.

(** *** Adapters of adapters *)

Lemma MultLeftMatrix_sized (A : MatrixBase R) (left : list R) :
  sized A -> length left = rows A ->
  sized
    (MultLeftMatrix_ {| MultLeftMatrix.A := A; MultLeftMatrix.left := left |}).
Proof.
  intros (Hm & Ht) Hl. split.
  - intros x Hx. simpl in *. run.
    destruct (Hm x Hx) as (u & -> & Lu). simpl.
    exists (hadamard u left). rewrite vmul_sized by congruence.
    split; [reflexivity|]. rewrite hadamard_length; congruence.
  - intros y Hy. simpl in *. run.
    rewrite vmul_sized by congruence. simpl.
    destruct (Ht (hadamard y left)) as (v & -> & Lv); [|eauto].
    rewrite hadamard_length; congruence.
Qed.

Lemma MultRightMatrix_sized (A : MatrixBase R) (r : list R) :
  sized A -> length r = cols A ->
  sized
    (MultRightMatrix_ {| MultRightMatrix.A := A; MultRightMatrix.r := r |}).
Proof.
  intros (Hm & Ht) Hr. split.
  - intros x Hx. simpl in *. run.
    rewrite vmul_sized by congruence. simpl.
    destruct (Hm (hadamard x r)) as (u & -> & Lu); [|eauto].
    rewrite hadamard_length; congruence.
  - intros y Hy. simpl in *. run.
    destruct (Ht y Hy) as (v & -> & Lv). simpl.
    exists (hadamard v r). rewrite vmul_sized by congruence.
    split; [reflexivity|]. rewrite hadamard_length; congruence.
Qed.

Lemma MultLeftRightMatrix_sized (A : MatrixBase R) (left right : list R) :
  sized A -> length left = rows A -> length right = cols A ->
  sized
    (MultLeftRightMatrix_
       {| MultLeftRightMatrix.A := A; MultLeftRightMatrix.right := right;
          MultLeftRightMatrix.left := left |}).
Proof.
  intros (Hm & Ht) Hl Hr. split.
  - intros x Hx. simpl in *. run.
    rewrite vmul_sized by congruence. simpl.
    destruct (Hm (hadamard x right)) as (u & -> & Lu);
      [rewrite hadamard_length; congruence|]. simpl.
    exists (hadamard u left). rewrite vmul_sized by congruence.
    split; [reflexivity|]. rewrite hadamard_length; congruence.
  - intros y Hy. simpl in *. run.
    rewrite vmul_sized by congruence. simpl.
    destruct (Ht (hadamard y left)) as (v & -> & Lv);
      [rewrite hadamard_length; congruence|]. simpl.
    exists (hadamard v right). rewrite vmul_sized by congruence.
    split; [reflexivity|]. rewrite hadamard_length; congruence.
Qed.

(** X3: an adapter is a matrix again as far as the sizes go, so adapters
    can be stacked: if the two products of the wrapped [A] return, a
    vector of [rows] entries for one of [cols] entries and back, then
    so do the two products of every adapter the constructors build, with
    the adapter's own [rows()] and [cols()] (a [MultRightMatrix] when
    its [r] is the default or has [A.cols()] entries).  This holds
    whatever the arithmetic of the entries, binary64 included. *)
Theorem adapters_are_matrices_again (A : MatrixBase R) :
  sized A ->
  (forall left M, MultLeftMatrix.__init__ A left = Ok M ->
     sized (MultLeftMatrix_ M)) /\
  (forall r M, MultRightMatrix.__init__ A r = Ok M ->
     (forall r', r = Some r' -> length r' = cols A) ->
     sized (MultRightMatrix_ M)) /\
  (forall left right M, MultLeftRightMatrix.__init__ A left right = Ok M ->
     sized (MultLeftRightMatrix_ M)).
Proof.
  intros HA. split; [|split].
  - intros left M E. apply MultLeftMatrix_init_inv in E as [-> Hl].
    now apply MultLeftMatrix_sized.
  - intros r M E Hr. apply MultRightMatrix_init_inv in E. subst M.
    apply MultRightMatrix_sized; auto. now apply default_r_length.
  - intros left right M E.
    apply MultLeftRightMatrix_init_inv in E as (-> & Hl & Hr).
    now apply MultLeftRightMatrix_sized.
Qed.

(** *** The inverse square root of a covariance matrix *)

Lemma combination_length (n : nat) (y : list R) (rws : list (list R)) :
  Forall (fun row => length row = n) rws ->
  length (foldr vadd (replicate n rO) (zip_with vscale y rws)) = n.
Proof.
  intros Hrws. revert y.
  induction Hrws as [|row rws Hrow _ IH]; intros [|y0 y]; simpl;
    try apply length_replicate.
  unfold vadd at 1. rewrite length_zip_with, IH.
  unfold vscale. rewrite length_map. lia.
Qed.

Lemma Cm05Matrix_mult_returns (M : Cm05Matrix.t R) (x : list R) :
  decomposed M -> length x = Cm05Matrix.size M ->
  returns (Cm05Matrix.mult x) M
  = Ok (map (fun row =>
               dot row
                 (zip_with rmul
                    (foldr vadd (replicate (Cm05Matrix.size M) rO)
                       (zip_with vscale x (Cm05Matrix.data (Cm05Matrix.EV M))))
                    (Cm05Matrix.mul M)))
          (Cm05Matrix.data (Cm05Matrix.EV M))).
Proof.
  intros (H0 & H1 & Hd & Hrw & Hmul) Hx. run.
  unfold Cm05Matrix.dot_vm. rewrite H0, Hx, Nat.eqb_refl. simpl.
  unfold Cm05Matrix.np_mul. rewrite H1.
  rewrite combination_length by assumption.
  rewrite Hmul, Nat.eqb_refl. simpl.
  unfold Cm05Matrix.dot_mv. rewrite H1, length_zip_with.
  rewrite combination_length by assumption. rewrite Hmul.
  rewrite Nat.min_id, Nat.eqb_refl. reflexivity.
Qed.

(** X6: where [Cm05Matrix.mult] is defined.  On an instance that holds
    [size] factors and a [size] x [size] array of eigenvectors,
    [mult(x)] returns a vector of [size] entries for every [x] of [size]
    entries, and raises [ValueError] for an [x] of any other size;
    [transMult(x)] returns or raises the same. *)
Theorem Cm05Matrix_mult_is_defined (M : Cm05Matrix.t R) :
  decomposed M ->
  (forall x, length x = Cm05Matrix.size M ->
     exists u, returns (Cm05Matrix.mult x) M = Ok u /\
               length u = Cm05Matrix.size M /\
               returns (Cm05Matrix.transMult x) M = Ok u) /\
  (forall x, length x <> Cm05Matrix.size M ->
     exists msg,
       returns (Cm05Matrix.mult x) M = Raise (ValueError msg) /\
       returns (Cm05Matrix.transMult x) M = Raise (ValueError msg)).
Proof.
  intros HM. pose proof HM as (H0 & H1 & Hd & Hrw & Hmul). split.
  - intros x Hx. eexists. split; [now apply Cm05Matrix_mult_returns|].
    split; [now rewrite length_map|].
    unfold Cm05Matrix.transMult. now apply Cm05Matrix_mult_returns.
  - intros x Hx. exists "shapes not aligned".
    assert (E : returns (Cm05Matrix.mult x) M
                = Raise (ValueError "shapes not aligned")).
    { run. unfold Cm05Matrix.dot_vm. rewrite H0.
      destruct (Nat.eqb_spec (length x) (Cm05Matrix.size M)); [congruence|].
      reflexivity. }
    split; [exact E|]. unfold Cm05Matrix.transMult. exact E.
Qed.
End Algebra.

Lemma diag_sized {R : Type} `{Scalar R} (d : list R) : sized (diag d).
Proof. split; [apply diag_mult_sized | apply diag_transMult_sized]. Qed.

Lemma diag_transMult_length {R : Type} `{Scalar R} (d y v : list R) :
  transMult (diag d) y = Ok v -> length v = cols (diag d).
Proof.
  simpl. unfold vmul. destruct (Nat.eqb_spec (length y) (length d)) as [E|];
    [|discriminate].
  intros [= <-]. now rewrite hadamard_length.
Qed.

Lemma cm05_decomposed : decomposed cm05.
Proof. repeat split; repeat constructor. Qed.

Lemma two_sided_is_composition_witness :
  exists ML,
    MultLeftMatrix.__init__
      (MultRightMatrix_
         {| MultRightMatrix.A := diag [2; 3]%float; MultRightMatrix.r := [8; 9]%float |})
      [4; 5]%float = Ok ML /\
    returns (MultLeftMatrix.mult [1; 2]%float) ML = Ok [64; 270]%float /\
    returns (MultLeftMatrix.transMult [6; 7]%float) ML = Ok [384; 945]%float.
Proof.
  destruct (two_sided_is_composition (diag [2; 3]%float) [4; 5]%float [8; 9]%float _ eq_refl)
    as (MR & ML & _ & _ & E1 & E2 & (_ & _ & Hm & Ht) & _).
  injection E1 as <-. exists ML. split; [exact E2|]. split.
  - exact (eq_sym (Hm [1; 2]%float)).
  - exact (eq_sym (Ht [6; 7]%float)).
Defined.

Lemma adapters_are_matrices_again_witness :
  sized
    (MultLeftMatrix_
       {| MultLeftMatrix.A := diag [2; 3]%float;
          MultLeftMatrix.left := [4; 5]%float |}) /\
  sized
    (MultRightMatrix_
       {| MultRightMatrix.A := diag [2; 3]%float;
          MultRightMatrix.r := [1; 1]%float |}) /\
  sized
    (MultLeftRightMatrix_
       {| MultLeftRightMatrix.A := diag [2; 3]%float;
          MultLeftRightMatrix.right := [8; 9]%float;
          MultLeftRightMatrix.left := [4; 5]%float |}).
Proof.
  destruct (adapters_are_matrices_again (diag [2; 3]%float) (diag_sized _))
    as (HL & HR & HLR).
  split; [|split].
  - exact (HL [4; 5]%float _ eq_refl).
  - apply (HR None _ eq_refl). discriminate.
  - exact (HLR [4; 5]%float [8; 9]%float _ eq_refl).
Defined.

Lemma default_MultRightMatrix_is_A_witness :
  returns (MultRightMatrix.transMult [6; 7]%float)
    {| MultRightMatrix.A := diag [2; 3]%float; MultRightMatrix.r := [1; 1]%float |}
  = Ok [12; 21]%float.
Proof.
  destruct (default_MultRightMatrix_is_A (diag [2; 3]%float) _ eq_refl
              (diag_transMult_length _))
    as (_ & _ & _ & Ht).
  exact (Ht [6; 7]%float).
Defined.

Lemma MultRightMatrix_accepts_any_r_witness :
  is_Ok (returns (MultRightMatrix.mult [1; 2]%float)
           {| MultRightMatrix.A := diag [2; 3]%float; MultRightMatrix.r := [4]%float |})
  = false.
Proof.
  assert (Hr : length [4%float] <> cols (diag [2; 3]%float)) by (simpl; lia).
  destruct (MultRightMatrix_accepts_any_r (diag [2; 3]%float) [4]%float Hr)
    as (M & E & Hm & _).
  injection E as <-. exact (Hm [1; 2]%float eq_refl).
Defined.

Lemma Cm05Matrix_mult_is_defined_witness :
  returns (Cm05Matrix.mult [1; 0]%float) cm05 = Ok [29; 63]%float /\
  returns (Cm05Matrix.transMult [1; 0]%float) cm05 = Ok [29; 63]%float /\
  is_Ok (returns (Cm05Matrix.mult [1]%float) cm05) = false.
Proof.
  destruct (Cm05Matrix_mult_is_defined cm05 cm05_decomposed) as (Hd & Hu).
  destruct (Hd [1; 0]%float eq_refl) as (u & Eu & _ & Et).
  assert (E : Ok u = Ok [29; 63]%float) by (rewrite <- Eu; reflexivity).
  split; [now rewrite Eu|]. split; [now rewrite Et|].
  destruct (Hu [1]%float) as (msg & -> & _); [simpl; lia|reflexivity].
Defined.
End AdapterFacts.

(** ** More on the data-matrix viewer *)
Module ViewerFacts.
Import DataView DataViewSpec DataViewFacts ViewerSpec.

Lemma StronglySorted_lookup_lt (u : list Z) (i j : nat) (a b : Z) :
  StronglySorted Z.lt u -> u !! i = Some a -> u !! j = Some b ->
  i < j -> (a < b)%Z.
Proof.
  intros Hs. revert i j. induction Hs as [|x u Hs IH Hall]; intros i j Hi Hj Hij.
  - discriminate.
  - destruct i as [|i], j as [|j]; simpl in *; try lia.
    + injection Hi as ->. apply (Forall_lookup_1 _ _ _ _ Hall Hj).
    + apply (IH i j); auto. lia.
Qed.

Lemma enumerates_increasing (d : gmap Z nat) (u : list Z) :
  StronglySorted Z.lt u -> enumerates d u -> increasing d.
Proof.
  intros Hs Hd k k' i i' Hi Hi'. apply Hd in Hi, Hi'. split.
  - now apply (StronglySorted_lookup_lt u).
  - intros Hlt. destruct (Nat.lt_trichotomy i i') as [H|[->|H]]; [assumption|..].
    + rewrite Hi in Hi'. injection Hi' as ->. lia.
    + pose proof (StronglySorted_lookup_lt u _ _ _ _ Hs Hi' Hi H). lia.
Qed.

Lemma enumerates_injective (d : gmap Z nat) (u : list Z) (k k' : Z) (i : nat) :
  enumerates d u -> d !! k = Some i -> d !! k' = Some i -> k = k'.
Proof. intros Hd Hi Hi'. apply Hd in Hi, Hi'. congruence. Qed.

Lemma enumerates_onto_range (u : list Z) :
  NoDup u -> onto_range (dict_of_enumerate u).
Proof.
  intros Hnd i. rewrite dict_of_enumerate_size by assumption. split.
  - intros Hi. destruct (lookup_lt_is_Some_2 u i Hi) as [k Hk].
    exists k. now apply dict_of_enumerate_enumerates.
  - intros [k Hk]. apply dict_of_enumerate_enumerates in Hk; [|assumption].
    now apply lookup_lt_Some in Hk.
Qed.

Lemma dict_of_unique_keys (l : list Z) (k : Z) :
  is_Some (dict_of_enumerate (np_unique l) !! k) <-> k ∈ l.
Proof.
  pose proof (dict_of_enumerate_enumerates _ (np_unique_NoDup l)) as Hd.
  rewrite <- np_unique_elem_of. split.
  - intros [i Hi]. apply Hd in Hi. now apply list_elem_of_lookup_2 in Hi.
  - intros Hk. apply list_elem_of_lookup_1 in Hk as [i Hi].
    exists i. now apply Hd.
Qed.

Lemma dict_of_unique_increasing (l : list Z) :
  increasing (dict_of_enumerate (np_unique l)).
Proof.
  apply (enumerates_increasing _ (np_unique l)).
  - apply np_unique_sorted.
  - apply dict_of_enumerate_enumerates, np_unique_NoDup.
Qed.

(** X7: for vectors of ints that binary64 holds exactly, the
    dictionaries [generateMatrix] returns number the keys in increasing
    order: [xmap[k] < xmap[k']] exactly when [k < k'], the numbers are
    exactly [0 .. len(xmap)-1], and the keys are exactly the entries of
    [xvec] (of [xvec] and [yvec] together with [full]); likewise for
    [ymap] and [yvec]. *)
Theorem generateMatrix_numbers_in_order (xvec yvec : list Z) (vals : list float)
    (full : bool) (f : frame) :
  Forall exact64 xvec -> Forall exact64 yvec ->
  exists A xmap ymap,
    returns (generateMatrix xvec yvec vals full) f = Ok (A, xmap, ymap) /\
    increasing xmap /\ increasing ymap /\
    onto_range xmap /\ onto_range ymap /\
    (forall k, is_Some (xmap !! k) <-> k ∈ (if full then (xvec ++ yvec)%list else xvec)) /\
    (forall k, is_Some (ymap !! k) <-> k ∈ (if full then (xvec ++ yvec)%list else yvec)).
Proof.
  intros Ex Ey.
  destruct (generateMatrix_runs xvec yvec vals full f Ex Ey)
    as (A & xmap & ymap & Eret & -> & -> & _).
  do 3 eexists. split; [exact Eret|].
  destruct full;
    (split; [apply dict_of_unique_increasing|]);
    (split; [apply dict_of_unique_increasing|]);
    (split; [apply enumerates_onto_range, np_unique_NoDup|]);
    (split; [apply enumerates_onto_range, np_unique_NoDup|]);
    split; intros k; apply dict_of_unique_keys.
Qed.

(** *** generateMatrix: what is reported and printed *)

Section Report.
Variables (xvec yvec : list Z) (vals : list float) (xmap ymap : gmap Z nat).
Variables nr nc : nat.
Hypothesis Hx : forall i x, xvec !! i = Some x ->
  exists c, xmap !! x = Some c /\ c < nc.
Hypothesis Hy : forall i y, yvec !! i = Some y ->
  exists r, ymap !! y = Some r /\ r < nr.

Let cell := cell_of xmap ymap xvec yvec.
Let nshow := nshow_of xvec yvec vals.

Lemma generateMatrix_loop_reports_step (k : nat) (f : frame) :
  k < nshow -> stored cell vals nr nc k f.(A) ->
  exists f', generateMatrix_loop xvec yvec vals xmap ymap k f = (Ok tt, f') /\
             stored cell vals nr nc (S k) f'.(A) /\ stdout f' = stdout f /\
             inot f' = (inot f ++ if occupied cell vals k then [k] else [])%list.
Proof.
  intros Hk [Hshape Hcells]. unfold nshow, nshow_of in Hk.
  destruct (lookup_lt_is_Some_2 xvec k) as [xi Hxi]; [lia|].
  destruct (lookup_lt_is_Some_2 yvec k) as [yi Hyi]; [lia|].
  destruct (lookup_lt_is_Some_2 vals k) as [v Hv]; [lia|].
  destruct (Hx k xi Hxi) as (c & Hc & Hcn).
  destruct (Hy k yi Hyi) as (r & Hr & Hrn).
  destruct (setitem2_spec nr nc f.(A) r c v Hshape Hrn Hcn)
    as (A' & Eset & Hshape' & Hget).
  assert (Ecell : cell k = Some (r, c)).
  { unfold cell, cell_of. now rewrite Hxi, Hyi, Hr, Hc. }
  exists (set_A A' (if truthy (written cell vals k r c)
                    then append_inot k f else f)).
  unfold generateMatrix_loop, getitem_list, getitem_dict. run.
  rewrite Hxi, Hyi. simpl. rewrite Hr, Hc. simpl.
  rewrite (Hcells r c Hrn Hcn). simpl.
  split; [|split; [|split]].
  - destruct (truthy _); simpl; rewrite Hv; simpl; rewrite Eset; reflexivity.
  - simpl. split; [assumption|]. intros r' c' Hr' Hc'.
    rewrite Hget. destruct (decide ((r', c') = (r, c))) as [[= -> ->]|Hne].
    + simpl. rewrite decide_True by assumption. now rewrite Hv.
    + simpl. rewrite decide_False by congruence. auto.
  - destruct (truthy _); reflexivity.
  - unfold occupied. rewrite Ecell.
    destruct (truthy _); simpl; [reflexivity|now rewrite app_nil_r].
Qed.

Lemma generateMatrix_loop_reports (k : nat) (f : frame) :
  k <= nshow -> stored cell vals nr nc 0 f.(A) ->
  exists f', for_ (seq 0 k) (generateMatrix_loop xvec yvec vals xmap ymap) f
               = (Ok tt, f') /\
             stored cell vals nr nc k f'.(A) /\ stdout f' = stdout f /\
             inot f' = (inot f ++ reported cell vals k)%list.
Proof.
  intros Hk H0. induction k as [|k IH].
  - exists f. simpl. unfold reported. simpl. rewrite app_nil_r. auto.
  - destruct IH as (f1 & E1 & H1 & Hout1 & Hinot1); [lia|].
    destruct (generateMatrix_loop_reports_step k f1)
      as (f2 & E2 & H2 & Hout2 & Hinot2); [lia | assumption |].
    exists f2. rewrite seq_S, for_app. unfold bind at 1. rewrite E1. simpl.
    unfold bind. rewrite E2.
    split; [reflexivity|]. split; [assumption|]. split; [congruence|].
    rewrite Hinot2, Hinot1. unfold reported.
    rewrite seq_S, List.filter_app, <- app_assoc. simpl.
    destruct (occupied cell vals k); reflexivity.
Qed.
End Report.

(** The call as a whole: the matrix it returns and what it prints. *)
Lemma generateMatrix_prints (xvec yvec : list Z) (vals : list float)
    (full : bool) (f : frame) :
  Forall exact64 xvec -> Forall exact64 yvec ->
  exists A xmap ymap,
    returns (generateMatrix xvec yvec vals full) f = Ok (A, xmap, ymap) /\
    xmap = (if full then dict_of_enumerate (np_unique (xvec ++ yvec))
            else dict_of_enumerate (np_unique xvec)) /\
    ymap = (if full then xmap else dict_of_enumerate (np_unique yvec)) /\
    stored (cell_of xmap ymap xvec yvec) vals (size ymap) (size xmap)
      (nshow_of xvec yvec vals) A /\
    stdout (leaves (generateMatrix xvec yvec vals full) f)
    = (stdout f
       ++ messages (reported (cell_of xmap ymap xvec yvec) vals
                      (nshow_of xvec yvec vals))
            (nshow_of xvec yvec vals))%list.
Proof.
  intros Ex Ey.
  destruct (generateMatrix_maps xvec yvec full) as (Hx & Hy & _).
  unfold generateMatrix.
  rewrite (np_hstack_exact xvec yvec Ex Ey), (np_array_exact xvec Ex),
    (np_array_exact yvec Ey).
  set (xmap := if full then dict_of_enumerate (np_unique (xvec ++ yvec))
               else dict_of_enumerate (np_unique xvec)) in *.
  set (ymap := if full then xmap else dict_of_enumerate (np_unique yvec)) in *.
  destruct (generateMatrix_loop_reports xvec yvec vals xmap ymap
              (size ymap) (size xmap) Hx Hy (nshow_of xvec yvec vals)
              (set_inot [] (set_A (np_zeros (size ymap) (size xmap)) f)))
    as (f' & Eloop & Hstored & Hout & Hinot); [lia | |].
  { split; [apply np_zeros_shaped|]. intros r c Hr Hc.
    now apply np_zeros_getitem2. }
  simpl in Hinot, Hout.
  exists (A f'), xmap, ymap. run. rewrite Eloop. simpl.
  unfold messages. rewrite <- Hinot.
  destruct (0 <? length (inot f'))%nat; simpl;
    [destruct (length (inot f') <? 30)%nat; simpl|];
    rewrite ?Hout, ?app_nil_r, <- ?app_assoc; auto.
Qed.

(** Every index below [nshow] has a cell in the matrix. *)
Lemma generateMatrix_last_cells (xvec yvec : list Z) (vals : list float)
    (full : bool) (f : frame) :
  Forall exact64 xvec -> Forall exact64 yvec ->
  exists A xmap ymap,
    returns (generateMatrix xvec yvec vals full) f = Ok (A, xmap, ymap) /\
    forall i, i < nshow_of xvec yvec vals ->
      exists r c, cell_of xmap ymap xvec yvec i = Some (r, c) /\
                  r < size ymap /\ c < size xmap.
Proof.
  intros Ex Ey.
  destruct (generateMatrix_runs xvec yvec vals full f Ex Ey)
    as (A & xmap & ymap & Eret & Exmap & Eymap & _).
  destruct (generateMatrix_maps xvec yvec full) as (Hx & Hy & _).
  rewrite <- Exmap in Hx, Hy. rewrite <- Eymap in Hy.
  exists A, xmap, ymap. split; [exact Eret|].
  intros i Hi. unfold nshow_of in Hi.
  destruct (lookup_lt_is_Some_2 xvec i) as [xi Hxi]; [lia|].
  destruct (lookup_lt_is_Some_2 yvec i) as [yi Hyi]; [lia|].
  destruct (Hx i xi Hxi) as (c & Hc & Hcn).
  destruct (Hy i yi Hyi) as (r & Hr & Hrn).
  exists r, c. unfold cell_of. now rewrite Hxi, Hyi, Hr, Hc.
Qed.

Lemma truthy_zero : truthy 0%float = false.
Proof. reflexivity. Qed.

(** With non-zero values only, a cell is occupied as soon as it has been
    written. *)
Lemma written_truthy cell (vals : list float) (k r c : nat) :
  k <= length vals ->
  (forall j v, vals !! j = Some v -> truthy v = true) ->
  truthy (written cell vals k r c) = true <->
  exists j, j < k /\ cell j = Some (r, c).
Proof.
  intros Hk Hnz. induction k as [|k IH]; simpl.
  - rewrite truthy_zero. split; [discriminate|]. intros (j & Hj & _). lia.
  - destruct (decide (cell k = Some (r, c))) as [E|E].
    + destruct (lookup_lt_is_Some_2 vals k) as [v Hv]; [lia|].
      rewrite Hv, (Hnz k v Hv). split; [|reflexivity].
      intros _. exists k. split; [lia|assumption].
    + rewrite IH by lia. split; intros (j & Hj & Ej).
      * exists j. split; [lia|assumption].
      * exists j. split; [|assumption].
        destruct (decide (j = k)) as [->|]; [contradiction|lia].
Qed.

(** X9: what [generateMatrix] prints, for vectors of ints that binary64
    holds exactly.  The line "n data of nshow not
    shown" is printed exactly when the list [inot] is not empty, and the
    list itself when it has fewer than 30 entries.  An index [i] is in
    [inot] exactly when the cell it maps to holds a non-zero entry when
    the loop reaches [i]; when no value is zero, this is exactly when an
    earlier index maps to the same cell.  (A cell that holds a zero
    value is overwritten without a report.) *)
Theorem generateMatrix_reports_overwrites (xvec yvec : list Z)
    (vals : list float) (full : bool) (f : frame) :
  Forall exact64 xvec -> Forall exact64 yvec ->
  exists A xmap ymap,
    returns (generateMatrix xvec yvec vals full) f = Ok (A, xmap, ymap) /\
    let cell := cell_of xmap ymap xvec yvec in
    let nshow := nshow_of xvec yvec vals in
    let inot := reported cell vals nshow in
    stdout (leaves (generateMatrix xvec yvec vals full) f)
    = (stdout f
       ++ (if (0 <? length inot)%nat
           then print_not_shown (length inot) nshow
                :: (if (length inot <? 30)%nat then [print_list inot] else [])
           else []))%list /\
    (forall i, In i inot <->
       i < nshow /\
       exists r c, cell i = Some (r, c) /\
                   truthy (written cell vals i r c) = true) /\
    ((forall j v, vals !! j = Some v -> truthy v = true) ->
     forall i, In i inot <->
       i < nshow /\ exists j, j < i /\ cell j = cell i).
Proof.
  intros Ex Ey.
  destruct (generateMatrix_prints xvec yvec vals full f Ex Ey)
    as (A & xmap & ymap & Eret & _ & _ & _ & Hout).
  destruct (generateMatrix_last_cells xvec yvec vals full f Ex Ey)
    as (A' & xmap' & ymap' & Eret' & Hin).
  rewrite Eret in Eret'. injection Eret' as <- <- <-.
  exists A, xmap, ymap. split; [exact Eret|]. cbv zeta.
  set (cell := cell_of xmap ymap xvec yvec) in *.
  set (nshow := nshow_of xvec yvec vals) in *.
  split; [exact Hout|].
  assert (Hrep : forall i, In i (reported cell vals nshow) <->
            i < nshow /\
            exists r c, cell i = Some (r, c) /\
                        truthy (written cell vals i r c) = true).
  { intros i. unfold reported. rewrite filter_In, in_seq. unfold occupied.
    split.
    - intros [Hi Hocc]. split; [lia|].
      destruct (cell i) as [[r c]|]; [|discriminate]. eauto.
    - intros [Hi (r & c & -> & Ht)]. split; [lia|assumption]. }
  split; [exact Hrep|].
  intros Hnz i. rewrite Hrep. split; intros [Hi H]; (split; [assumption|]).
  - destruct H as (r & c & Ec & Ht).
    apply written_truthy in Ht; [|unfold nshow, nshow_of in Hi; lia|assumption].
    destruct Ht as (j & Hj & Ej). exists j. split; [assumption|congruence].
  - destruct H as (j & Hj & Ej).
    destruct (Hin i Hi) as (r & c & Ec & _). exists r, c. split; [assumption|].
    apply written_truthy; [unfold nshow, nshow_of in Hi; lia|assumption|].
    exists j. split; [assumption|congruence].
Qed.

Lemma filter_none {T} (p : T -> bool) (l : list T) :
  (forall x, In x l -> p x = false) -> List.filter p l = [].
Proof.
  induction l as [|x l IH]; intros Hp; simpl; [reflexivity|].
  rewrite (Hp x) by now left. apply IH. intros y Hy. apply Hp. now right.
Qed.

(** Two indices share a cell only if they carry the same pair. *)
Lemma generateMatrix_cell_injective (xvec yvec : list Z) (full : bool)
    (i j : nat) (p : nat * nat) :
  let xmap := if full then dict_of_enumerate (np_unique (xvec ++ yvec))
              else dict_of_enumerate (np_unique xvec) in
  let ymap := if full then xmap else dict_of_enumerate (np_unique yvec) in
  cell_of xmap ymap xvec yvec i = Some p ->
  cell_of xmap ymap xvec yvec j = Some p ->
  xvec !! i = xvec !! j /\ yvec !! i = yvec !! j.
Proof.
  intros xmap ymap.
  assert (Hinj : exists ux uy, enumerates xmap ux /\ enumerates ymap uy).
  { destruct (generateMatrix_maps xvec yvec full) as (_ & _ & Hmaps).
    fold xmap in Hmaps. fold ymap in Hmaps. destruct full.
    - destruct Hmaps as (E & u & _ & Hu). exists u, u. rewrite <- E. auto.
    - destruct Hmaps as (ux & uy & _ & Hux & _ & Huy). eauto. }
  destruct Hinj as (ux & uy & Hux & Huy).
  unfold cell_of.
  destruct (xvec !! i) as [xi|], (yvec !! i) as [yi|]; try discriminate.
  destruct (ymap !! yi) as [r|] eqn:Er; [|discriminate].
  destruct (xmap !! xi) as [c|] eqn:Ec; [|discriminate].
  intros [= <-].
  destruct (xvec !! j) as [xj|], (yvec !! j) as [yj|]; try discriminate.
  destruct (ymap !! yj) as [r'|] eqn:Er'; [|discriminate].
  destruct (xmap !! xj) as [c'|] eqn:Ec'; [|discriminate].
  intros [= -> ->].
  rewrite (enumerates_injective _ _ _ _ _ Hux Ec Ec').
  rewrite (enumerates_injective _ _ _ _ _ Huy Er Er'). auto.
Qed.

(** X8: for vectors of ints that binary64 holds exactly, when the pairs
    [(xvec[i], yvec[i])] below
    [nshow = min(len(xvec), len(yvec), len(vals))] are pairwise
    distinct, [generateMatrix] stores every value and reports nothing:
    [A[ymap[yvec[i]], xmap[xvec[i]]] = vals[i]] for every [i < nshow],
    and nothing is printed. *)
Theorem generateMatrix_keeps_distinct_pairs (xvec yvec : list Z)
    (vals : list float) (full : bool) (f : frame) :
  Forall exact64 xvec -> Forall exact64 yvec ->
  distinct_pairs xvec yvec (nshow_of xvec yvec vals) ->
  exists A xmap ymap,
    returns (generateMatrix xvec yvec vals full) f = Ok (A, xmap, ymap) /\
    (forall i, i < nshow_of xvec yvec vals ->
       exists xi yi v r c,
         xvec !! i = Some xi /\ yvec !! i = Some yi /\ vals !! i = Some v /\
         ymap !! yi = Some r /\ xmap !! xi = Some c /\
         getitem2 A r c = Ok v) /\
    stdout (leaves (generateMatrix xvec yvec vals full) f) = stdout f.
Proof.
  intros Hex Hey Hdist.
  destruct (generateMatrix_prints xvec yvec vals full f Hex Hey)
    as (A & xmap & ymap & Eret & Exmap & Eymap & [Hshape Hcells] & Hout).
  destruct (generateMatrix_last_cells xvec yvec vals full f Hex Hey)
    as (A' & xmap' & ymap' & Eret' & Hin).
  rewrite Eret in Eret'. injection Eret' as <- <- <-.
  pose proof (generateMatrix_cell_injective xvec yvec full) as Hinj.
  cbv zeta in Hinj. rewrite <- Exmap in Hinj. rewrite <- Eymap in Hinj.
  set (cell := cell_of xmap ymap xvec yvec) in *.
  set (nshow := nshow_of xvec yvec vals) in *.
  assert (Hother : forall i j p, i < nshow -> j < nshow -> i <> j ->
            cell i = Some p -> cell j <> Some p).
  { intros i j p Hi Hj Hne Ei Ej.
    destruct (Hinj i j p Ei Ej) as [Ex Ey]. apply Hne. now apply Hdist. }
  exists A, xmap, ymap. split; [exact Eret|]. split.
  - intros i Hi. destruct (Hin i Hi) as (r & c & Ec & Hr & Hcn).
    pose proof Ec as Ec'. unfold cell, cell_of in Ec'.
    destruct (xvec !! i) as [xi|] eqn:Exi; [|discriminate].
    destruct (yvec !! i) as [yi|] eqn:Eyi; [|discriminate].
    destruct (ymap !! yi) as [r'|] eqn:Er; [|discriminate].
    destruct (xmap !! xi) as [c'|] eqn:Ecc; [|discriminate].
    injection Ec' as -> ->.
    destruct (lookup_lt_is_Some_2 vals i) as [v Hv];
      [unfold nshow, nshow_of in Hi; lia|].
    exists xi, yi, v, r, c. repeat split; auto.
    rewrite (Hcells r c Hr Hcn). f_equal.
    apply (written_last _ _ _ _ _ i); auto.
    intros j Hj. apply (Hother i j); auto; lia.
  - rewrite Hout.
    assert (E : reported cell vals nshow = []).
    { unfold reported.
      apply filter_none. intros i Hi. apply in_seq in Hi.
      unfold occupied. destruct (cell i) as [[r c]|] eqn:Ei; [|reflexivity].
      rewrite written_none; [reflexivity|].
      intros j Hj. apply (Hother i j); auto; lia. }
    rewrite E. unfold messages. simpl. apply app_nil_r.
Qed.

(** *** patchMatrix on an axes *)

Lemma np_nonzero_entries (A : list (list float)) :
  np_nonzero A = (map (fun p => p.1.1) (nonzero_entries A),
                  map (fun p => p.1.2) (nonzero_entries A)).
Proof. reflexivity. Qed.

Lemma nonzero_entries_spec (A : list (list float)) (p : nat * nat * float) :
  In p (nonzero_entries A) -> getitem2 A p.1.1 p.1.2 = Ok p.2 /\ truthy p.2 = true.
Proof.
  unfold nonzero_entries. rewrite filter_In. intros [Hp Ht].
  split; [now apply np_nonzero_cells | assumption].
Qed.

Lemma patchMatrix_loop_fills (A : list (list float)) (dx : float) (f : pframe)
    (k : nat) :
  k <= length (nonzero_entries A) ->
  for_ (seq 0 k) (fun i =>
    let! ixi := lift (getitem_list (np_nonzero A).2 i) in
    let! iyi := lift (getitem_list (np_nonzero A).1 i) in
    assign (append_recs
              {| xy := (PrimFloat.sub (of_nat ixi) (PrimFloat.div dx 2%float),
                        PrimFloat.sub (of_nat iyi) 0.5%float);
                 width := dx; height := 1%float |}) ;;;
    let! a := lift (getitem2 A iyi ixi) in
    assign (append_vals a)) f
  = (Ok tt,
     {| recs := (recs f ++ map (patch_of dx) (take k (nonzero_entries A)))%list;
        vals := (vals f ++ map snd (take k (nonzero_entries A)))%list;
        mpl := mpl f |}).
Proof.
  induction k as [|k IH]; intros Hk.
  - simpl. rewrite !app_nil_r. destruct f; reflexivity.
  - rewrite seq_S, for_app. unfold bind at 1. rewrite IH by lia.
    cbv beta iota. cbn [for_ Nat.add].
    destruct (lookup_lt_is_Some_2 (nonzero_entries A) k) as [[[r c] a] Hp]; [lia|].
    rewrite (take_S_r _ _ _ Hp), !map_app, !app_assoc.
    rewrite np_nonzero_entries. unfold getitem_list. run.
    rewrite !list_lookup_fmap, Hp. simpl.
    apply list_elem_of_lookup_2, list_elem_of_In, nonzero_entries_spec in Hp
      as [Hget _].
    simpl in Hget. rewrite Hget. simpl. reflexivity.
Qed.

Lemma patchMatrix_loop_full (A : list (list float)) (dx : float) (f : pframe) :
  for_ (seq 0 (length (np_nonzero A).2)) (fun i =>
    let! ixi := lift (getitem_list (np_nonzero A).2 i) in
    let! iyi := lift (getitem_list (np_nonzero A).1 i) in
    assign (append_recs
              {| xy := (PrimFloat.sub (of_nat ixi) (PrimFloat.div dx 2%float),
                        PrimFloat.sub (of_nat iyi) 0.5%float);
                 width := dx; height := 1%float |}) ;;;
    let! a := lift (getitem2 A iyi ixi) in
    assign (append_vals a)) f
  = (Ok tt,
     {| recs := (recs f ++ map (patch_of dx) (nonzero_entries A))%list;
        vals := (vals f ++ map snd (nonzero_entries A))%list;
        mpl := mpl f |}).
Proof.
  assert (E : length (np_nonzero A).2 = length (nonzero_entries A)).
  { rewrite np_nonzero_entries. simpl. apply length_map. }
  rewrite E, patchMatrix_loop_fills by lia.
  now rewrite firstn_all.
Qed.

Lemma nonzero_entries_iff (A : list (list float)) (p : nat * nat * float) :
  In p (nonzero_entries A) <->
  getitem2 A p.1.1 p.1.2 = Ok p.2 /\ truthy p.2 = true.
Proof.
  split; [apply nonzero_entries_spec|].
  destruct p as [[r c] a]. simpl. intros [Hget Ht].
  unfold nonzero_entries. apply filter_In. split; [|assumption].
  unfold getitem2, getitem_list in Hget.
  destruct (A !! r) as [row|] eqn:Hrow; [|discriminate].
  destruct (row !! c) as [a'|] eqn:Ha; [|discriminate].
  injection Hget as ->.
  apply in_concat. exists (imap (fun c a => (r, c, a)) row). split.
  - apply list_elem_of_In, elem_of_lookup_imap. eauto.
  - apply list_elem_of_In, elem_of_lookup_imap. eauto.
Qed.

Lemma patch_calls_no_figure A ax lo hi logScale label dx kwargs :
  ~ In plt_subplots (patch_calls A ax lo hi logScale label dx kwargs).
Proof.
  unfold patch_calls. rewrite !in_app_iff. simpl.
  destruct (kwargs !! "cmap"); destruct (kwargs !! "colorBar") as [o|];
    try destruct (bool_of o); simpl;
    intuition discriminate.
Qed.

(** X10: [patchMatrix] on an axes [ax], once the colour limits are there
    (given, or returned by numpy's [min] and [max]): it returns
    [(ax, cbar)]; it adds to [ax] one collection with one rectangle per
    non-zero entry of [A], row by row, the rectangle of entry [(r, c)]
    being [dx] wide and 1 high with corner [(c - dx/2, r - 0.5)]; the
    colour array holds these entries in the same order; the colour map
    is set only if [cmap] is among the keyword arguments and the colour
    bar is created unless [colorBar] is false; [plt.subplots] is not
    called, and [xmap] and [ymap] play no part. *)
Theorem patchMatrix_draws_nonzero_entries
    (np_min np_max : list (list float) -> result float)
    (A : list (list float)) (xmap ymap : option (gmap Z nat)) (ax : nat)
    (cMin cMax : option float) (logScale : option bool) (label : pyobj)
    (dx : float) (kwargs : gmap string pyobj) (f : pframe) (lo hi : float) :
  match cMin with Some c => Ok c | None => np_min A end = Ok lo ->
  match cMax with Some c => Ok c | None => np_max A end = Ok hi ->
  let call := patchMatrix np_min np_max A xmap ymap (PyAxes ax) cMin cMax
                logScale label dx kwargs in
  (exists cbar, returns call f = Ok (PyAxes ax, cbar)) /\
  mpl (leaves call f)
  = (mpl f ++ patch_calls A ax lo hi logScale label dx kwargs)%list /\
  ~ In plt_subplots (patch_calls A ax lo hi logScale label dx kwargs) /\
  (forall p, In p (nonzero_entries A) <->
     getitem2 A p.1.1 p.1.2 = Ok p.2 /\ truthy p.2 = true).
Proof.
  intros Hlo Hhi call.
  pose proof (patchMatrix_loop_full A dx (clear_locals f)) as Eloop.
  unfold call, patchMatrix.
  destruct cMin, cMax; run; rewrite ?Hlo, ?Hhi; simpl.
  all: destruct (np_nonzero A) as [iy ix] eqn:Enz; simpl in *.
  all: rewrite Eloop; simpl.
  all: try injection Hlo as ->; try injection Hhi as ->.
  all: split; [|split; [|split; [apply patch_calls_no_figure
                                 |apply nonzero_entries_iff]]].
  all: unfold patch_calls, pop_default.
  all: destruct (kwargs !! "cmap") as [cm|] eqn:Ecm; simpl;
    rewrite ?lookup_delete_ne by discriminate;
    destruct (kwargs !! "colorBar") as [o|]; simpl;
    try destruct (bool_of o); simpl;
    rewrite <- ?app_assoc; simpl; eauto.
Qed.

(** *** The viewer at work *)

Lemma generateMatrix_numbers_in_order_witness :
  exists A xmap ymap,
    returns (generateMatrix [3; 1; 3; 2]%Z [10; 10; 10; 20]%Z
               [1.5%float; 2.5%float; 3.5%float; 4.5%float] true) fresh
      = Ok (A, xmap, ymap) /\
    xmap !! 20%Z = Some 4 /\ size xmap = 5 /\
    (forall k, is_Some (xmap !! k) <-> k ∈ [3; 1; 3; 2; 10; 10; 10; 20]%Z) /\
    increasing ymap.
Proof.
  assert (Ex : Forall exact64 [3; 1; 3; 2]%Z) by (repeat constructor).
  assert (Ey : Forall exact64 [10; 10; 10; 20]%Z) by (repeat constructor).
  destruct (generateMatrix_numbers_in_order [3; 1; 3; 2]%Z [10; 10; 10; 20]%Z
              [1.5%float; 2.5%float; 3.5%float; 4.5%float] true fresh Ex Ey)
    as (A & xmap & ymap & E & _ & Hinc & _ & _ & Hkeys & _).
  exists A, xmap, ymap. split; [exact E|].
  split; [|split; [|split; [exact Hkeys | exact Hinc]]].
  - vm_compute in E. injection E as <- <- <-. reflexivity.
  - vm_compute in E. injection E as <- <- <-. reflexivity.
Defined.

Lemma generateMatrix_reports_overwrites_witness :
  stdout (leaves (generateMatrix [3; 1; 3; 2]%Z [10; 10; 10; 20]%Z
                    [1.5%float; 2.5%float; 3.5%float; 4.5%float] false) fresh)
  = [print_not_shown 1 4; print_list [2]].
Proof.
  assert (Ex : Forall exact64 [3; 1; 3; 2]%Z) by (repeat constructor).
  assert (Ey : Forall exact64 [10; 10; 10; 20]%Z) by (repeat constructor).
  destruct (generateMatrix_reports_overwrites [3; 1; 3; 2]%Z [10; 10; 10; 20]%Z
              [1.5%float; 2.5%float; 3.5%float; 4.5%float] false fresh Ex Ey)
    as (A & xmap & ymap & E & Hout & _).
  vm_compute in E. injection E as <- <- <-. exact Hout.
Defined.

Lemma generateMatrix_keeps_distinct_pairs_witness :
  exists A xmap ymap,
    returns (generateMatrix [3; 1; 2]%Z [10; 10; 20]%Z
               [1.5%float; 2.5%float; 4.5%float] false) fresh
      = Ok (A, xmap, ymap) /\
    getitem2 A 0 2 = Ok 1.5%float /\
    stdout (leaves (generateMatrix [3; 1; 2]%Z [10; 10; 20]%Z
                      [1.5%float; 2.5%float; 4.5%float] false) fresh) = [].
Proof.
  assert (Hd : distinct_pairs [3; 1; 2]%Z [10; 10; 20]%Z
                 (nshow_of [3; 1; 2]%Z [10; 10; 20]%Z
                    [1.5%float; 2.5%float; 4.5%float])).
  { intros i j Hi Hj. vm_compute in Hi, Hj.
    destruct i as [|[|[|i]]], j as [|[|[|j]]]; try lia;
      simpl; intros; congruence. }
  assert (Hex : Forall exact64 [3; 1; 2]%Z) by (repeat constructor).
  assert (Hey : Forall exact64 [10; 10; 20]%Z) by (repeat constructor).
  destruct (generateMatrix_keeps_distinct_pairs [3; 1; 2]%Z [10; 10; 20]%Z
              [1.5%float; 2.5%float; 4.5%float] false fresh Hex Hey Hd)
    as (A & xmap & ymap & E & Hall & Hout).
  exists A, xmap, ymap. split; [exact E|]. split; [|exact Hout].
  vm_compute in E. injection E as <- <- <-.
  destruct (Hall 0) as (xi & yi & v & r & c & Ex & Ey & Ev & Er & Ec & Hget).
  { vm_compute. lia. }
  injection Ex as <-. injection Ey as <-. injection Ev as <-.
  vm_compute in Er, Ec. injection Er as <-. injection Ec as <-.
  exact Hget.
Defined.

Lemma patchMatrix_draws_nonzero_entries_witness :
  mpl (leaves (patchMatrix (fun _ => Ok 1%float) (fun _ => Ok 2%float)
                 [[1%float; 0%float]] None None (PyAxes 7) None None None
                 PyNone 1%float ∅) blank)
  = [add_collection 7 [{| xy := ((-0.5)%float, (-0.5)%float);
                          width := 1%float; height := 1%float |}];
     set_edgecolor; set_linewidths 0%float;
     set_norm (LogNorm 1%float 2%float); set_array [1%float];
     set_clim 1%float 2%float; updateAxes_ 7;
     createColorbar 1%float 2%float 5 PyNone].
Proof.
  destruct (patchMatrix_draws_nonzero_entries
              (fun _ => Ok 1%float) (fun _ => Ok 2%float)
              [[1%float; 0%float]] None None 7 None None None PyNone 1%float ∅
              blank 1%float 2%float eq_refl eq_refl)
    as (_ & Hm & _).
  exact Hm.
Defined.
End ViewerFacts.

(** ** More on the VES manager *)
Module ManagerFacts.
Import VES VESSpec VESFacts ManagerSpec.

(** *** Framing *)

Section Frames.
Context {S : Type} (K : S -> S -> Prop) `{!PreOrder K}.

Lemma frames_ret {T} (v : T) : frames K (ret v).
Proof. intros s. reflexivity. Qed.

Lemma frames_throw {T} (e : exn) : frames K (@throw S T e).
Proof. intros s. reflexivity. Qed.

Lemma frames_lift {T} (r : result T) : frames K (lift r).
Proof. intros s. reflexivity. Qed.

Lemma frames_this : frames K (@this S).
Proof. intros s. reflexivity. Qed.

Lemma frames_assign (f : S -> S) : (forall s, K s (f s)) -> frames K (assign f).
Proof. intros Hf s. apply Hf. Qed.

Lemma frames_bind {T U} (m : method S T) (k : T -> method S U) :
  frames K m -> (forall v, frames K (k v)) -> frames K (bind m k).
Proof.
  intros Hm Hk s. unfold leaves, bind. specialize (Hm s). unfold leaves in Hm.
  destruct (m s) as [[v|e] s1]; simpl in *; [|assumption].
  transitivity s1; [assumption|apply Hk].
Qed.

Lemma frames_if {T} (b : bool) (m1 m2 : method S T) :
  frames K m1 -> frames K m2 -> frames K (if b then m1 else m2).
Proof. destruct b; auto. Qed.

(** Two continuations that agree on the states [m] can leave agree after
    [m]. *)
Lemma bind_ext {T U} (m : method S T) (k1 k2 : T -> method S U) (s : S) :
  frames K m ->
  (forall v s', K s s' -> k1 v s' = k2 v s') ->
  bind m k1 s = bind m k2 s.
Proof.
  intros Hm Hk. unfold bind. specialize (Hm s). unfold leaves in Hm.
  destruct (m s) as [[v|e] s1]; simpl in *; auto.
Qed.
End Frames.

#[export] Instance configured_preorder : PreOrder configured.
Proof.
  split.
  - intros s. repeat split. exists []. now rewrite app_nil_r.
  - intros s1 s2 s3 (Hv & Ht & Ha & Hm & Hz & l1 & H1)
      (Hv' & Ht' & Ha' & Hm' & Hz' & l2 & H2).
    repeat split; try congruence.
    exists (l1 ++ l2)%list. now rewrite H2, H1, app_assoc.
Qed.

#[export] Instance in_place_preorder P : PreOrder (in_place P).
Proof.
  split.
  - intros s. repeat split. exists []. now rewrite app_nil_r.
  - intros s1 s2 s3 (Ht & Hf & Hi & l1 & H1 & P1) (Ht' & Hf' & Hi' & l2 & H2 & P2).
    repeat split; try congruence.
    exists (l1 ++ l2)%list. rewrite H2, H1, app_assoc.
    split; [reflexivity|]. now apply Forall_app.
Qed.

Lemma configured_log c s : configured s (log c s).
Proof. repeat split. now exists [c]. Qed.

Lemma in_place_log (P : native -> Prop) c s : P c -> in_place P s (log c s).
Proof. intros Hc. repeat split. exists [c]. split; [reflexivity|]. now constructor. Qed.

Section Native.
Variable answer : list native -> value.
Variables np_median np_max : value -> value.

Section NativeFrames.
Variable K : state -> state -> Prop.
Context `{!PreOrder K}.

Lemma frames_new (c : native) : (forall s, K s (log c s)) -> frames K (new c).
Proof. intros Hc s. apply Hc. Qed.

Lemma frames_extern (c : native) :
  (forall s, K s (log c s)) -> frames K (extern answer c).
Proof. intros Hc s. apply Hc. Qed.

Lemma frames_on_INV {T} name (m : nat -> method state T) :
  (forall inv, frames K (m inv)) -> frames K (on_INV name m).
Proof.
  intros Hm s. unfold leaves, on_INV, bind, this. simpl.
  destruct (INV (self s)) as [inv|]; [apply Hm|reflexivity].
Qed.

Lemma frames_on_FOP {T} name (m : nat -> method state T) :
  (forall fop, frames K (m fop)) -> frames K (on_FOP name m).
Proof.
  intros Hm s. unfold leaves, on_FOP, bind, this. simpl.
  destruct (FOP (self s)) as [fop|]; [apply Hm|reflexivity].
Qed.
End NativeFrames.

(** One statement of a method; [tac] shows that a single assignment or
    native call is in the frame. *)
Ltac frames_step tac :=
  lazymatch goal with
  | |- frames _ (bind _ _) => apply frames_bind; [typeclasses eauto| |intros]
  | |- frames _ (ret _) => apply frames_ret; typeclasses eauto
  | |- frames _ this => apply frames_this; typeclasses eauto
  | |- frames _ (lift _) => apply frames_lift; typeclasses eauto
  | |- frames _ (throw _) => apply frames_throw; typeclasses eauto
  | |- frames _ (assign _) => apply frames_assign; intros; tac
  | |- frames _ (new _) => apply frames_new; intros; tac
  | |- frames _ (extern _ _) => apply frames_extern; intros; tac
  | |- frames _ (on_INV _ _) => apply frames_on_INV; [typeclasses eauto|intros]
  | |- frames _ (on_FOP _ _) => apply frames_on_FOP; [typeclasses eauto|intros]
  | |- frames _ (setParameters _ _ _ _ _) => unfold setParameters
  | |- frames _ (if _ then _ else _) => apply frames_if
  | |- frames _ (let _ := _ in _) => cbv zeta
  | |- frames _ (match ?x with Some _ => _ | None => _ end) => destruct x
  | |- frames _ (let '(_, _) := ?x in _) => destruct x
  end.

Ltac configured_tac :=
  first [ apply configured_log
        | repeat split; exists []; simpl; now rewrite app_nil_r ].

Lemma applyModelTrans_configured : frames configured (applyModelTrans answer).
Proof. unfold applyModelTrans. repeat frames_step configured_tac. Qed.

Lemma createFOP_configured : frames configured (createFOP answer).
Proof.
  unfold createFOP. repeat frames_step configured_tac.
  apply applyModelTrans_configured.
Qed.

Lemma applyDataTrans_configured : frames configured (applyDataTrans answer).
Proof. unfold applyDataTrans. repeat frames_step configured_tac. Qed.

Lemma createStartModel_configured data :
  frames configured (createStartModel np_median np_max data).
Proof. unfold createStartModel, getDepth. repeat frames_step configured_tac. Qed.

Lemma createINV_configured data relErrorP startmodel kwargs :
  frames configured (createINV answer np_median np_max data relErrorP startmodel kwargs).
Proof.
  unfold createINV. repeat frames_step configured_tac;
    first [ apply createFOP_configured | apply applyDataTrans_configured
          | apply createStartModel_configured ].
Qed.

Lemma invert_configured data startmodel relErrorP lam kwargs :
  frames configured (invert answer np_median np_max data startmodel relErrorP lam kwargs).
Proof.
  unfold invert. repeat frames_step configured_tac.
  apply createINV_configured.
Qed.

(** X12: no method changes the configuration of the sounding:
    [createFOP], [applyModelTrans], [applyDataTrans],
    [createModelTrans], [createStartModel], [createINV] and [invert]
    leave [verbose], [type], [ab2], [mn2] and [Z] as they were, whether
    they return or raise, and only add to the history of native
    calls. *)
Theorem methods_keep_configuration :
  frames configured (createFOP answer) /\
  frames configured (applyModelTrans answer) /\
  frames configured (applyDataTrans answer) /\
  (forall thk rho tr, frames configured (createModelTrans answer thk rho tr)) /\
  (forall data, frames configured (createStartModel np_median np_max data)) /\
  (forall data relErrorP startmodel kwargs,
     frames configured
       (createINV answer np_median np_max data relErrorP startmodel kwargs)) /\
  (forall data startmodel relErrorP lam kwargs,
     frames configured
       (invert answer np_median np_max data startmodel relErrorP lam kwargs)).
Proof.
  split; [apply createFOP_configured|].
  split; [apply applyModelTrans_configured|].
  split; [apply applyDataTrans_configured|].
  split; [|split; [intros; apply createStartModel_configured|]].
  - intros. unfold createModelTrans. repeat frames_step configured_tac.
    apply applyModelTrans_configured.
  - split; intros; [apply createINV_configured | apply invert_configured].
Qed.

(** *** Keyword arguments *)

Lemma bind_this_ext {T} (k1 k2 : state -> method state T) (s : state) :
  k1 s s = k2 s s -> bind this k1 s = bind this k2 s.
Proof. auto. Qed.

Lemma bind_ext_type {T U} (m : method state T) (k1 k2 : T -> method state U)
    (s : state) :
  frames configured m ->
  (forall v s', s'.(self).(type) = s.(self).(type) -> k1 v s' = k2 v s') ->
  bind m k1 s = bind m k2 s.
Proof.
  intros Hm Hk. apply (bind_ext configured); [assumption|].
  intros v s' (_ & Ht & _). now apply Hk.
Qed.

Lemma createINV_ignores_kwargs (s : state) (data relErrorP startmodel : value)
    (kwargs kwargs' : gmap string value) :
  eq_str s.(self).(type) "block" = false ->
  createINV answer np_median np_max data relErrorP startmodel kwargs s
  = createINV answer np_median np_max data relErrorP startmodel kwargs' s.
Proof.
  intros Hty. unfold createINV.
  apply bind_this_ext.
  apply bind_ext_type.
  { apply frames_if; [apply createFOP_configured|apply frames_ret; apply _]. }
  intros _ s1 E1. apply bind_this_ext.
  apply bind_ext_type; [apply frames_new; intros; apply configured_log|].
  intros inv s2 E2.
  apply bind_ext_type; [apply frames_assign; intros; configured_tac|].
  intros _ s3 E3.
  apply bind_ext_type; [apply applyDataTrans_configured|].
  intros _ s4 E4. apply bind_this_ext.
  rewrite E4, E3, E2, E1, Hty. reflexivity.
Qed.

(** X13: keyword arguments reach block managers only: on a manager whose
    [type] is not ['block'], [createINV] and [invert] return the same
    and leave the same state whatever the keyword arguments are. *)
Theorem kwargs_reach_block_managers_only (s : state)
    (data startmodel relErrorP lam : value) (kwargs kwargs' : gmap string value) :
  eq_str s.(self).(type) "block" = false ->
  createINV answer np_median np_max data relErrorP startmodel kwargs s
  = createINV answer np_median np_max data relErrorP startmodel kwargs' s /\
  invert answer np_median np_max data startmodel relErrorP lam kwargs s
  = invert answer np_median np_max data startmodel relErrorP lam kwargs' s.
Proof.
  intros Hty. split; [now apply createINV_ignores_kwargs|].
  unfold invert.
  apply bind_ext_type; [apply frames_assign; intros; configured_tac|].
  intros _ s1 E1. apply bind_this_ext.
  destruct (negb (bool_decide (is_Some (INV (self s1))))); [|reflexivity].
  unfold bind at 1 3.
  rewrite (createINV_ignores_kwargs s1 data relErrorP startmodel kwargs kwargs')
    by now rewrite E1.
  reflexivity.
Qed.

(** *** A first [invert] that fails *)

Ltac state_norm :=
  cbv beta;
  lazymatch goal with
  | |- wp ?m ?Q ?s =>
      let s' := eval cbv beta iota delta
                  [log set_FOP set_INV set_dataTrans set_dataToFit
                   set_startmodel set_resDistribution set_modelTrans
                   world self verbose type
                   ab2 mn2 Z FOP INV VES.startmodel thkBounds rhoBounds trans
                   dataTrans dataToFit resDistribution] in s in
      change (wp m Q s')
  | _ => idtac
  end;
  cbn [world self verbose type ab2 mn2 Z FOP INV VES.startmodel thkBounds
       rhoBounds trans dataTrans dataToFit resDistribution].

Ltac step :=
  lazymatch goal with
  | |- wp (bind this _) _ _ => apply wp_this
  | |- wp (bind (assign _) _) _ _ => apply wp_assign
  | |- wp (bind (new _) _) _ _ => apply wp_new
  | |- wp (bind (extern _ _) _) _ _ => apply wp_extern
  | |- wp (bind (ret _) _) _ _ => apply wp_ret_bind
  | |- wp (bind (on_INV _ _) _) _ _ => eapply wp_on_INV; [reflexivity|]
  | |- wp (bind (on_FOP _ _) _) _ _ => eapply wp_on_FOP; [reflexivity|]
  | |- wp (bind (setParameters _ _ _ _ _) _) _ _ =>
      eapply wp_setParameters; [eassumption..|]
  | |- wp (bind (if _ then _ else _) _) _ _ =>
      first [ apply wp_bind_if_true; [reflexivity|]
            | apply wp_bind_if_false; [reflexivity|] ]
  | |- wp (if _ then _ else _) _ _ =>
      first [ apply wp_if_true; [reflexivity|]
            | apply wp_if_false; [reflexivity|] ]
  | |- wp (bind (bind _ _) _) _ _ => apply wp_bind
  | |- wp (ret _) _ _ => apply wp_ret
  | |- wp (assign _) _ _ => apply wp_assign_end
  | |- match Ok _ with Ok _ => _ | Raise _ => _ end => cbv beta iota
  end;
  state_norm.

(** The entries of the bounds, named. *)
Ltac bound_items H :=
  let t0 := fresh "t0" in let t1 := fresh "t1" in let t2 := fresh "t2" in
  let r0 := fresh "r0" in let r1 := fresh "r1" in let r2 := fresh "r2" in
  let k0 := fresh "k0" in let k1 := fresh "k1" in
  let Ht0 := fresh "Ht0" in let Ht1 := fresh "Ht1" in let Ht2 := fresh "Ht2" in
  let Hr0 := fresh "Hr0" in let Hr1 := fresh "Hr1" in let Hr2 := fresh "Hr2" in
  let Hk0 := fresh "Hk0" in let Hk1 := fresh "Hk1" in
  destruct H as [[? [=]]|((t0 & t1 & t2 & Ht0 & Ht1 & Ht2) &
                          (r0 & r1 & r2 & Hr0 & Hr1 & Hr2) &
                          (k0 & k1 & Hk0 & Hk1))];
  cbn [thkBounds rhoBounds trans] in Ht0, Ht1, Ht2, Hr0, Hr1, Hr2, Hk0, Hk1.




(** *** The forward operator *)

Lemma added_app (s s' : state) (calls : list native) :
  s'.(world) = (s.(world) ++ calls)%list -> added s s' = calls.
Proof. intros E. unfold added. rewrite E. apply drop_app_length. Qed.

(** X15: [createFOP] by type.  For ['block'] it creates the
    [DC1dModelling] operator, stores it, creates the block mesh and sets
    it; then it reads [thkBounds[0..2]] and [trans[0]] and sets the
    parameters of region 0, reads [rhoBounds[0..2]] and [trans[1]] and
    sets those of region 1, and returns; an entry that is not there
    raises the error of its lookup, with the operator stored and the
    calls made so far.  For ['smooth'] it creates the
    [DC1dRhoModelling] operator and stores it; then, if [len(self.Z)] is
    defined, the mesh of [len(Z)+1] cells is created and set, and the
    parameters of region 0 from [rhoBounds] and [trans[1]] in the same
    way, and otherwise the error of [len] is raised with the operator
    already in [self.FOP].  For any other type it raises and changes
    nothing: [AttributeError] if there is no operator yet, else the
    error of the unbound local [mesh1D].  A previous operator is
    replaced. *)
Theorem createFOP_by_type (s : state) :
  let n := length s.(world) in
  let m := s.(self) in
  let s' := leaves (createFOP answer) s in
  let r := returns (createFOP answer) s in
  (m.(type) = VStr "block" ->
     let made := [DC1dModelling m.(Z) m.(ab2) m.(mn2); createMesh1DBlock m.(Z);
                  setMesh n (S n)] in
     s'.(self).(FOP) = Some n /\
     match parameters m.(thkBounds) m.(trans) 0 with
     | Raise e => r = Raise e /\ added s s' = made
     | Ok p0 =>
         match parameters m.(rhoBounds) m.(trans) 1 with
         | Raise e =>
             r = Raise e /\
             added s s' = (made ++ [setParameters_call n 0 p0])%list
         | Ok p1 =>
             r = Ok tt /\
             added s s' = (made ++ [setParameters_call n 0 p0;
                                    setParameters_call n 1 p1])%list
         end
     end) /\
  (m.(type) = VStr "smooth" ->
     s'.(self).(FOP) = Some n /\
     match len m.(Z) with
     | Ok k =>
         let made := [DC1dRhoModelling m.(Z) m.(ab2) m.(mn2);
                      createMesh1D (k + 1); setMesh n (S n)] in
         match parameters m.(rhoBounds) m.(trans) 1 with
         | Raise e => r = Raise e /\ added s s' = made
         | Ok p =>
             r = Ok tt /\
             added s s' = (made ++ [setParameters_call n 0 p])%list
         end
     | Raise e =>
         r = Raise e /\
         added s s' = [DC1dRhoModelling m.(Z) m.(ab2) m.(mn2)]
     end) /\
  (eq_str m.(type) "block" = false -> eq_str m.(type) "smooth" = false ->
     s' = s /\
     r = match m.(FOP) with
         | Some _ =>
             Raise (UnboundLocalError
                      "local variable 'mesh1D' referenced before assignment")
         | None =>
             Raise (AttributeError
                      "'NoneType' object has no attribute 'setMesh'")
         end).
Proof.
  destruct s as [[vb ty ab mn z fop inv sm tb rb tr dt df rd] w].
  cbv zeta. cbn [self world type Z ab2 mn2 thkBounds rhoBounds trans FOP].
  unfold returns, leaves, added, parameters, setParameters_call.
  split; [|split].
  - intros ->. unfold createFOP, applyModelTrans. run.
    repeat lazymatch goal with
           | |- context [getitem ?v ?i] => destruct (getitem v i); simpl
           end;
      rewrite <- ?app_assoc; rewrite drop_app_length, ?length_app; simpl;
      rewrite ?Nat.add_1_r; auto.
  - intros ->. unfold createFOP, applyModelTrans. run.
    destruct (len z) as [k|e]; run.
    + repeat lazymatch goal with
             | |- context [getitem ?v ?i] => destruct (getitem v i); simpl
             end;
        rewrite <- ?app_assoc; rewrite drop_app_length, ?length_app; simpl;
        rewrite ?Nat.add_1_r; auto.
    + rewrite drop_app_length. auto.
  - intros Hb Hs. unfold createFOP. run. rewrite Hb, Hs.
    destruct fop; run; auto.
Qed.

(** *** The model transformation *)

(** X16: [createModelTrans] stores what it is given, unchecked, and
    waits for the forward operator.  Without one it returns and makes no
    native call, whatever the bounds and transformations are.  With one
    it hands them to it at once: for ['smooth'] it reads
    [modelBounds[0..2]] and [trans[1]] and sets the parameters of
    region 0; for ['block'] it reads [thkBounds[0..2]] and [trans[0]]
    for region 0, then [modelBounds[0..2]] and [trans[1]] for region 1;
    for any other type it does nothing.  An entry that is not there
    raises the error of its lookup, after the three have been stored and
    the earlier call made.  [applyModelTrans] itself raises when there
    is no forward operator, and changes nothing. *)
Theorem createModelTrans_waits_for_FOP (s : state) (thk rho tr : value) :
  let call := createModelTrans answer thk rho tr in
  let s' := leaves call s in
  let r := returns call s in
  s'.(self).(thkBounds) = thk /\ s'.(self).(rhoBounds) = rho /\
  s'.(self).(trans) = tr /\
  match s.(self).(FOP) with
  | None => r = Ok tt /\ added s s' = []
  | Some fop =>
      if eq_str s.(self).(type) "smooth" then
        match parameters rho tr 1 with
        | Raise e => r = Raise e /\ added s s' = []
        | Ok p => r = Ok tt /\ added s s' = [setParameters_call fop 0 p]
        end
      else if eq_str s.(self).(type) "block" then
        match parameters thk tr 0 with
        | Raise e => r = Raise e /\ added s s' = []
        | Ok p0 =>
            match parameters rho tr 1 with
            | Raise e =>
                r = Raise e /\ added s s' = [setParameters_call fop 0 p0]
            | Ok p1 =>
                r = Ok tt /\
                added s s' = [setParameters_call fop 0 p0;
                              setParameters_call fop 1 p1]
            end
        end
      else r = Ok tt /\ added s s' = []
  end /\
  (s.(self).(FOP) = None ->
   exists msg, applyModelTrans answer s = (Raise (Exception msg), s)).
Proof.
  destruct s as [[vb ty ab mn z fop inv sm tb rb tr0 dt df rd] w].
  cbv zeta. cbn [self world type FOP].
  unfold returns, leaves, added, createModelTrans, applyModelTrans,
    parameters, setParameters_call.
  destruct fop as [fop|]; run.
  - repeat split; try discriminate;
      (destruct (eq_str ty "smooth"); [|destruct (eq_str ty "block")]); run;
      repeat lazymatch goal with
             | |- context [getitem ?v ?i] => destruct (getitem v i); simpl
             end;
      rewrite <- ?app_assoc, ?drop_app_length, ?drop_all; auto.
  - rewrite drop_all. repeat split; auto. intros _. eexists. reflexivity.
Qed.

(** *** Building the inversion again *)

Lemma wp_frames {T} (K : state -> state -> Prop) (m : method state T)
    (Q : result T -> state -> Prop) (s : state) :
  frames K m -> (forall r s', K s s' -> Q r s') -> wp m Q s.
Proof. intros Hm HQ. apply HQ, Hm. Qed.

Ltac in_place_tac :=
  first [ apply in_place_log; reflexivity
        | repeat split; exists []; simpl; rewrite app_nil_r;
          split; [reflexivity|constructor] ].

Lemma createStartModel_in_place P data :
  frames (in_place P) (createStartModel np_median np_max data).
Proof. unfold createStartModel, getDepth. repeat frames_step in_place_tac. Qed.

(** X17: [createINV] reuses the forward operator but not the inversion:
    when [self.FOP] is set, the first native call is
    [RInversion(data, self.FOP, False)], the new object replaces
    whatever [self.INV] was, [self.FOP] stays, and no other operator or
    inversion is created, whether the call returns or raises. *)
Theorem createINV_reuses_FOP_only (s : state) (fop : nat)
    (data relErrorP startmodel : value) (kwargs : gmap string value) :
  s.(self).(FOP) = Some fop ->
  let s' := leaves (createINV answer np_median np_max data relErrorP startmodel
                      kwargs) s in
  s'.(self).(FOP) = Some fop /\
  s'.(self).(INV) = Some (length s.(world)) /\
  exists rest,
    added s s' = RInversion data (Some fop) false :: rest /\
    Forall (fun c => constructs c = false) rest.
Proof.
  intros HFOP.
  destruct s as [[vb ty ab mn z fop0 inv sm tb rb tr dt df rd] w].
  simpl in HFOP. subst fop0. cbv zeta. cbn [world].
  set (s := {| self := _; world := w |}).
  change (wp (createINV answer np_median np_max data relErrorP startmodel kwargs)
            (fun _ s' =>
               s'.(self).(FOP) = Some fop /\
               s'.(self).(INV) = Some (length w) /\
               exists rest,
                 added s s' = RInversion data (Some fop) false :: rest /\
                 Forall (fun c => constructs c = false) rest) s).
  subst s. unfold createINV. do 6 step.
  apply (wp_frames (in_place (fun c => constructs c = false))).
  { unfold applyDataTrans. repeat frames_step in_place_tac.
    apply createStartModel_in_place. }
  intros r s' (_ & HF & HI & calls & Hw & Hcalls).
  cbn [self world FOP INV] in HF, HI, Hw.
  split; [exact HF|]. split; [exact HI|].
  exists calls. split; [|exact Hcalls].
  apply added_app. cbn [world]. rewrite Hw, <- app_assoc. reflexivity.
Qed.

(** *** simulate *)

(** X18: [simulate] on a model given as two Python lists, thicknesses
    and resistivities: it creates [DC1dModelling(len(res), ab2, mn2)]
    (with [mn2 = ab2/3] by default), asks it for the response of the
    concatenation [thk + res], draws [len(syndata)] random numbers and
    returns [syndata * (noise * errPerc / 100 + 1)], elementwise; these
    are its only native calls and the manager is untouched.  Given as
    two arrays (longer than one entry) of different lengths, which a
    layered model always has, [thk + res] is an elementwise sum and
    raises [ValueError] after the operator has been created. *)
Theorem simulate_concatenates_lists (s : state) (ab2 mn2 q : value)
    (errPerc : float) :
  (if is_None mn2 then truediv ab2 (VNum 3) else Ok mn2) = Ok q ->
  let n := length s.(world) in
  (forall thk res sv nv,
     let dc := DC1dModelling (VNum (of_nat (length res))) ab2 q in
     let fw := response n (VList (thk ++ res)) in
     let call := simulate answer (VList [VList thk; VList res]) ab2 mn2
                   (VNum errPerc) in
     answer (s.(world) ++ [dc; fw]) = VVec sv ->
     answer (s.(world) ++ [dc; fw; randn (length sv)]) = VVec nv ->
     length nv = length sv ->
     returns call s
     = Ok (VVec (zip_with PrimFloat.mul sv
                   (map (fun x => PrimFloat.add
                                    (PrimFloat.div (PrimFloat.mul x errPerc) 100) 1)
                      nv))) /\
     added s (leaves call s) = [dc; fw; randn (length sv)] /\
     (leaves call s).(self) = s.(self)) /\
  (forall thk res,
     let call := simulate answer (VList [VVec thk; VVec res]) ab2 mn2
                   (VNum errPerc) in
     length thk <> length res -> length thk <> 1 -> length res <> 1 ->
     returns call s
     = Raise (ValueError "operands could not be broadcast together") /\
     added s (leaves call s)
     = [DC1dModelling (VNum (of_nat (length res))) ab2 q] /\
     (leaves call s).(self) = s.(self)).
Proof.
  intros Hq n.
  assert (Emn2 : forall s0 : state,
            (if is_None mn2 then lift (truediv ab2 (VNum 3)) else ret mn2) s0
            = (Ok q, s0)).
  { intros s0. destruct (is_None mn2); [unfold lift; now rewrite Hq
                                       | now injection Hq as <-]. }
  split.
  - intros thk res sv nv dc fw call Hsv Hnv Hlen.
    unfold call, simulate, returns, leaves, added. run. rewrite Emn2. simpl.
    fold n. rewrite <- !app_assoc. simpl.
    fold dc. fold fw. rewrite Hsv. simpl.
    rewrite <- !app_assoc. simpl. rewrite Hnv. simpl.
    rewrite !length_map, Hlen, Nat.eqb_refl. simpl.
    unfold n. rewrite drop_app_length. rewrite !map_map. auto.
  - intros thk res call Hne Hthk Hres.
    unfold call, simulate, returns, leaves, added. run. rewrite Emn2. simpl.
    destruct (Nat.eqb_spec (length thk) (length res)); [contradiction|].
    destruct thk as [|t0 [|t1 thk]], res as [|r0 [|r1 res]];
      try contradiction; simpl in Hthk, Hres; try contradiction;
      simpl; unfold n; rewrite drop_app_length; auto.
Qed.

(** *** The start model *)

Lemma createINV_block_start fop w vb ab mn z sm tb rb tr dt df rd
    (data relErrorP startmodel : value) (kwargs : gmap string value)
    (v err eff m0 m1 : value) :
  let s := {| self := {| verbose := vb; type := VStr "block"; ab2 := ab;
                         mn2 := mn; Z := z; FOP := fop; INV := None;
                         startmodel := sm; thkBounds := tb; rhoBounds := rb;
                         trans := tr; dataTrans := dt; dataToFit := df;
                         resDistribution := rd |};
              world := w |} in
  ready s.(self) ->
  kwargs !! "lambdaFactor" = Some v ->
  truediv relErrorP (VNum 100) = Ok err ->
  block_start np_median np_max s.(self) startmodel data = Ok eff ->
  getitem eff 0 = Ok m0 -> getitem eff 1 = Ok m1 ->
  wp (createINV answer np_median np_max data relErrorP startmodel kwargs)
    (fun r s' =>
       r = Ok tt /\ s'.(self).(VES.startmodel) = eff /\
       exists fop' pre,
         s'.(self).(FOP) = Some fop' /\
         s'.(world) = ((pre ++ [region_setStartValue fop' 0 m0])
                       ++ [region_setStartValue fop' 1 m1])%list /\
         exists calls, pre = (w ++ calls)%list) s.
Proof.
  intros s Hready Hlf Herr Heff Hm0 Hm1. subst s.
  unfold block_start, default_block_start in Heff.
  cbn [self VES.startmodel ab2 Z] in Heff, Hready.
  unfold createINV, createFOP, applyModelTrans, applyDataTrans.
  destruct fop as [fop|]; [|bound_items Hready].
  all: repeat step; apply wp_lift; unfold pop; rewrite Hlf.
  all: repeat step; unfold pop_default at 1; rewrite lookup_delete_eq.
  all: repeat step; destruct (pop_default _ "robust" _) as [rb0 kwargs2].
  all: repeat step; apply wp_lift; rewrite Herr; repeat step.
  all: destruct (is_None startmodel) eqn:Es; cbn [negb] in Heff;
    repeat step.
  1,3: destruct (is_None sm) eqn:Esm; cbn [negb] in Heff; repeat step.
  1,3: unfold createStartModel, getDepth; repeat step;
    apply wp_lift_end;
    destruct (truediv (np_max ab) (VNum 3)) as [d1|]; [|discriminate];
    repeat step; apply wp_lift;
    destruct (truediv d1 z) as [d2|]; [|discriminate];
    repeat step; apply wp_lift;
    destruct (truediv d2 (VNum 2)) as [d3|]; [|discriminate];
    repeat step.
  5,6: rewrite Es; repeat step.
  all: injection Heff as <-.
  all: apply wp_lift; rewrite Hm0; repeat step.
  all: apply wp_lift; rewrite Hm1; repeat step.
  all: split; [reflexivity|]; split; [reflexivity|].
  all: do 2 eexists; split; [reflexivity|]; split; [reflexivity|].
  all: rewrite <- !app_assoc; eexists; reflexivity.
Qed.

(** X19: the start model of a block inversion, on a manager whose
    forward operator is there or whose bounds and transformations have
    the entries [applyModelTrans] reads.  [createINV] settles on
    the [startmodel] that is passed, else on the one stored in
    [self.startmodel], else on the default
    [[max(ab2)/3 / Z / 2, median(data)]]; it stores it in
    [self.startmodel], and its last two native calls hand entries 0
    and 1 of it to regions 0 and 1 of the forward operator. *)
Theorem createINV_settles_start_model (s : state)
    (data relErrorP startmodel : value) (kwargs : gmap string value)
    (v err eff m0 m1 : value) :
  eq_str s.(self).(type) "block" = true ->
  s.(self).(INV) = None ->
  ready s.(self) ->
  kwargs !! "lambdaFactor" = Some v ->
  truediv relErrorP (VNum 100) = Ok err ->
  block_start np_median np_max s.(self) startmodel data = Ok eff ->
  getitem eff 0 = Ok m0 -> getitem eff 1 = Ok m1 ->
  let call := createINV answer np_median np_max data relErrorP startmodel
                kwargs in
  returns call s = Ok tt /\
  (leaves call s).(self).(VES.startmodel) = eff /\
  exists fop calls,
    (leaves call s).(self).(FOP) = Some fop /\
    added s (leaves call s)
    = (calls ++ [region_setStartValue fop 0 m0;
                 region_setStartValue fop 1 m1])%list.
Proof.
  intros Hty HINV Hready Hlf Herr Heff Hm0 Hm1 call.
  destruct s as [[vb ty ab mn z fop inv sm tb rb tr dt df rd] w].
  simpl in Hty, HINV. apply eq_str_block in Hty. subst ty inv.
  destruct (createINV_block_start fop w vb ab mn z sm tb rb tr dt df rd
              data relErrorP startmodel kwargs v err eff m0 m1
              Hready Hlf Herr Heff Hm0 Hm1)
    as (Hr & Hsm & fop' & pre & HF & Hw & calls & ->).
  split; [exact Hr|]. split; [exact Hsm|].
  exists fop', calls. split; [exact HF|].
  apply added_app. cbn [world]. unfold call, leaves. rewrite Hw.
  rewrite <- !app_assoc. reflexivity.
Qed.
End Native.

(** *** The manager at work against the sample library *)

Lemma kwargs_reach_block_managers_only_witness :
  invert answer0 median0 max0 (VVec [100%float; 200%float]) VNone (VNum 3) VNone
    {["lambdaFactor" := VNum 0.5]} smooth0
  = invert answer0 median0 max0 (VVec [100%float; 200%float]) VNone (VNum 3) VNone
      ∅ smooth0.
Proof.
  exact (proj2 (kwargs_reach_block_managers_only answer0 median0 max0 smooth0
                  (VVec [100%float; 200%float]) VNone (VNum 3) VNone
                  {["lambdaFactor" := VNum 0.5]} ∅ eq_refl)).
Defined.


Lemma createINV_reuses_FOP_only_witness :
  (leaves (createINV answer0 median0 max0 (VVec [1%float]) (VNum 3)
             VNone {["lambdaFactor" := VNum 0.5]}) block1).(self).(FOP)
  = Some 0 /\
  (leaves (createINV answer0 median0 max0 (VVec [1%float]) (VNum 3)
             VNone {["lambdaFactor" := VNum 0.5]}) block1).(self).(INV)
  = Some 17.
Proof.
  destruct (createINV_reuses_FOP_only answer0 median0 max0 block1 0
              (VVec [1%float]) (VNum 3) VNone {["lambdaFactor" := VNum 0.5]}
              eq_refl)
    as (HF & HI & _).
  split; [exact HF | exact HI].
Defined.

Lemma simulate_concatenates_lists_witness :
  added block0
    (leaves (simulate answer0
               (VList [VList [VNum 4; VNum 6];
                       VList [VNum 100; VNum 500; VNum 20]])
               (VVec [3%float; 30%float]) VNone (VNum 3)) block0)
  = [DC1dModelling (VNum 3) (VVec [3%float; 30%float])
       (VVec [1%float; 10%float]);
     response 0 (VList [VNum 4; VNum 6; VNum 100; VNum 500; VNum 20]);
     randn 2].
Proof.
  destruct (simulate_concatenates_lists answer0 block0 (VVec [3%float; 30%float])
              VNone (VVec [1%float; 10%float]) 3%float eq_refl)
    as (Hlists & _).
  exact (proj1 (proj2 (Hlists [VNum 4; VNum 6] [VNum 100; VNum 500; VNum 20]
                         [100%float; 200%float] [100%float; 200%float]
                         eq_refl eq_refl eq_refl))).
Defined.

Lemma createINV_settles_start_model_witness :
  (leaves (createINV answer0 median0 max0 (VVec [100%float; 200%float])
             (VNum 3) VNone {["lambdaFactor" := VNum 0.5]}) block0)
    .(self).(VES.startmodel)
  = VList [VNum (30 / 3 / 4 / 2); VNum 150].
Proof.
  exact (proj1 (proj2 (createINV_settles_start_model answer0 median0 max0 block0
                         (VVec [100%float; 200%float]) (VNum 3) VNone
                         {["lambdaFactor" := VNum 0.5]} (VNum 0.5)
                         (VNum (3 / 100))
                         (VList [VNum (30 / 3 / 4 / 2); VNum 150])
                         (VNum (30 / 3 / 4 / 2)) (VNum 150)
                         eq_refl eq_refl block0_ready eq_refl eq_refl eq_refl
                         eq_refl eq_refl))).
Defined.
End ManagerFacts.

(** ** The inverted model and its fit *)
Module ResultsFacts.
Import VES VESResults ResultsSpec.

Lemma slice_bound_le (n : nat) (z : BinNums.Z) : slice_bound n z <= n.
Proof. unfold slice_bound. destruct (Z.ltb_spec z 0); lia. Qed.

Lemma slice_bound_in_range (n : nat) (z : BinNums.Z) :
  (0 <= z <= Z.of_nat n)%Z -> slice_bound n z = Z.to_nat z.
Proof.
  intros Hz. unfold slice_bound. destruct (Z.ltb_spec z 0); lia.
Qed.

Lemma take_removelast {T} (l : list T) : take (length l - 1) l = removelast l.
Proof.
  induction l as [|a [|b l] IH]; try reflexivity.
  cbn [length removelast] in *. rewrite Nat.sub_succ, Nat.sub_0_r in *.
  cbn [take]. f_equal. exact IH.
Qed.

(** X20: [splitBlockModel] splits the inverted model at [int(Z) - 1] and
    loses nothing: the two parts, one after the other, are
    [resDistribution]; for a number of layers [n] with
    [1 <= n <= len + 1] the first part has [n - 1] entries (the
    thicknesses) and the second the rest; for [n = 0] the bound is [-1]
    and the first part is all but the last entry; for [n - 1 > len] the
    first part is everything.  The manager is left as it was. *)
Theorem splitBlockModel_splits_the_model (int_ : value -> result BinNums.Z)
    (s : state) (model : list float) (n : BinNums.Z) :
  s.(self).(resDistribution) = Some (VVec model) ->
  int_ s.(self).(VES.Z) = Ok n ->
  exists thk rho,
    splitBlockModel int_ s = (Ok (VVec thk, VVec rho), s) /\
    (thk ++ rho)%list = model /\
    ((1 <= n <= Z.of_nat (length model) + 1)%Z ->
       length thk = Z.to_nat (n - 1) /\
       length rho = length model - Z.to_nat (n - 1)) /\
    (n = 0%Z -> thk = removelast model) /\
    ((Z.of_nat (length model) < n - 1)%Z -> thk = model /\ rho = []).
Proof.
  intros Hres Hn.
  exists (take (slice_bound (length model) (n - 1)) model),
         (drop (slice_bound (length model) (n - 1)) model).
  split; [|split; [|split; [|split]]].
  - unfold splitBlockModel. run. rewrite Hn. simpl. rewrite Hres. reflexivity.
  - apply take_drop.
  - intros Hrange. rewrite slice_bound_in_range by lia.
    rewrite length_take, length_drop. lia.
  - intros ->. unfold slice_bound.
    change (0 - 1)%Z with (-1)%Z. change (-1 <? 0)%Z with true. cbv iota.
    replace (Z.to_nat (Z.max 0 (Z.of_nat (length model) + -1)))
      with (length model - 1) by lia.
    apply take_removelast.
  - intros Hbig. unfold slice_bound.
    destruct (Z.ltb_spec (n - 1) 0); [lia|].
    rewrite Nat.min_r by lia. rewrite firstn_all, drop_all. auto.
Qed.

(** X21: [showFit] needs an axes: its parameter [ax] defaults to [None],
    there is no guard that would create a figure, and with [ax=None] the
    call raises [AttributeError] at its first [ax.loglog], whatever the
    other arguments, before anything is drawn or asked of the inversion.
    The parameter [marker] has no effect.  On an axes, with the
    inversion and [dataToFit] in place, it returns the axes after
    drawing the data (when [syn is True]), asking the inversion for its
    response and drawing it in [color], setting the y limits to
    [(max(ab2), min(ab2))], the grid, the two labels and the legend. *)
Theorem showFit_needs_an_axes
    (response_of : list plot_call -> value) (py_max py_min : value -> result value)
    (color marker syn : value) (s : canvas) :
  showFit response_of py_max py_min None color marker syn s
  = (Raise (AttributeError "'NoneType' object has no attribute 'loglog'"), s) /\
  (forall a marker',
     showFit response_of py_max py_min (Some a) color marker syn s
     = showFit response_of py_max py_min (Some a) color marker' syn s) /\
  (forall a inv d top bottom,
     s.(manager).(INV) = Some inv ->
     s.(manager).(dataToFit) = Some d ->
     py_max s.(manager).(ab2) = Ok top ->
     py_min s.(manager).(ab2) = Ok bottom ->
     let measured :=
       if is_True syn
       then [loglog a d s.(manager).(ab2) (VStr "bx-") "measured/synthetic"]
       else [] in
     showFit response_of py_max py_min (Some a) color marker syn s
     = (Ok (Some a),
        {| manager := s.(manager);
           drawn := (s.(drawn) ++ measured
                     ++ [INV_response inv;
                         loglog a
                           (response_of (s.(drawn) ++ measured ++ [INV_response inv]))
                           s.(manager).(ab2) color "fitted";
                         set_ylim a top bottom; grid a;
                         set_xlabel a "$\rho_a$ [$\Omega$m]";
                         set_ylabel a "AB/2 [m]"; legend a])%list |})).
Proof.
  split; [|split].
  - unfold showFit. destruct (is_True syn); reflexivity.
  - reflexivity.
  - intros a inv d top bottom HI Hd Htop Hbot measured. subst measured.
    destruct s as [[vb ty ab mn z fop inv0 sm tb rb tr dt df rd] dr].
    simpl in *. subst inv0 df.
    unfold showFit, on_ax, draw.
    destruct (is_True syn); run; rewrite Htop, Hbot; simpl;
      rewrite <- ?app_assoc; simpl; rewrite ?app_nil_r; reflexivity.
Qed.

Lemma splitBlockModel_splits_the_model_witness :
  exists thk rho,
    returns (splitBlockModel (fun _ => Ok 3%Z)) inverted0
    = Ok (VVec thk, VVec rho) /\
    (thk ++ rho)%list = [4%float; 6%float; 100%float; 500%float; 20%float] /\
    length thk = 2 /\ length rho = 3.
Proof.
  destruct (splitBlockModel_splits_the_model (fun _ => Ok 3%Z) inverted0
              [4%float; 6%float; 100%float; 500%float; 20%float] 3%Z
              eq_refl eq_refl)
    as (thk & rho & E & Happ & Hlen & _).
  exists thk, rho. unfold returns. rewrite E.
  split; [reflexivity|]. split; [exact Happ|].
  apply Hlen. simpl. lia.
Defined.
End ResultsFacts.
